(** * Webhook signature SDK: signing, parsing and verification

    A shallow embedding of [SignatureScheme.ts], [SignatureObject.ts] and
    [Signature.ts], with the fake scheme of [Signature.spec.ts].

    Conventions of the model.
    - A JavaScript string is a [string]: the bytes of its UTF-8 encoding
      (well-formed strings, no lone surrogates).  [','], ['='], ['v'], ['t'],
      the decimal digits and the signs are single bytes that never occur
      inside a multi-byte sequence, so splitting and prefix tests on bytes
      agree with the same operations on UTF-16 code units.
    - A [Buffer] is a list of bytes.
    - A JavaScript number holding an integer is a [Z]; the model is exact on
      the safe integers, [|n| < 2^53].  [NaN] and [undefined] are [None].
    - A thrown [Error] is a value of [Error]; operations that may throw or
      that can see the process-wide registry [Schemes.schemes] live in the
      monad [M]. *)

From Stdlib Require Import ZArith List String Ascii Bool Lia.
From Stdlib.Strings Require Import Byte.
From Stdlib Require Import DecimalString DecimalZ DecimalPos Permutation.
Import ListNotations.

#[local] Open Scope string_scope.
#[local] Open Scope Z_scope.

(** ** Errors *)

(** The errors the three modules throw, one constructor per message, plus
    the range error of [crypto.timingSafeEqual]. *)
Inductive Error : Type :=
| MalformedPair              (* 'invalid signature' *)
| MalformedEntry             (* 'invalid signature format' *)
| InvalidVersion             (* 'signature scheme version must be an integer' *)
| UnknownScheme (version : Z)  (* `invalid signature scheme version ${version}` *)
| DuplicateTimestamp         (* 'timestamp cannot be specified multiple times' *)
| InvalidTimestamp           (* 'timestamp must be an integer' *)
| MissingTimestamp           (* 'missing timestamp' *)
| Expired                    (* 'signature has expired' *)
| Unsigned                   (* 'payload not signed' *)
| Untrusted                  (* 'untrusted', internal to [verify] *)
| NoValidSignature           (* 'no valid signature' *)
| TimingSafeEqualLength.     (* RangeError of crypto.timingSafeEqual *)

(** ** JavaScript primitives used by the code *)

Module JS.

Definition Buffer : Type := list byte.

(** [Buffer.from(s, "utf8")] *)
Definition Buffer_from (s : string) : Buffer := list_byte_of_string s.

(** [s.split(sep)] for a one-character separator: never empty, one more
    part than there are separators. *)
Fixpoint split (sep : ascii) (s : string) : list string :=
  match s with
  | EmptyString => [EmptyString]
  | String c rest =>
      if Ascii.eqb c sep then EmptyString :: split sep rest
      else match split sep rest with
           | hd :: tl => String c hd :: tl
           | [] => [String c EmptyString]
           end
  end.

(** [parts.join(sep)] *)
Definition join (sep : string) (parts : list string) : string :=
  String.concat sep parts.

(** [s[0] !== c] *)
Definition first_char_differs (s : string) (c : ascii) : bool :=
  match s with
  | String a _ => negb (Ascii.eqb a c)
  | EmptyString => true
  end.

(** [s.replace(c, '')] with a string pattern: the first occurrence only. *)
Fixpoint replace_first (c : ascii) (s : string) : string :=
  match s with
  | EmptyString => EmptyString
  | String a rest =>
      if Ascii.eqb a c then rest else String a (replace_first c rest)
  end.

Definition code (a : ascii) : N := N_of_ascii a.

(** One-byte white space and line terminators: TAB, LF, VT, FF, CR, SP. *)
Definition is_space1 (a : ascii) : bool :=
  match code a with
  | 9 | 10 | 11 | 12 | 13 | 32 => true
  | _ => false
  end%N.

(** U+00A0 *)
Definition is_space2 (a b : ascii) : bool :=
  match code a, code b with
  | 194, 160 => true
  | _, _ => false
  end%N.

(** U+1680, U+2000..U+200A, U+2028, U+2029, U+202F, U+205F, U+3000,
    U+FEFF *)
Definition is_space3 (a b c : ascii) : bool :=
  match code a, code b, code c with
  | 225, 154, 128 => true
  | 226, 128, n => ((128 <=? n) && (n <=? 138)) || (n =? 168) || (n =? 169)
                   || (n =? 175)
  | 226, 129, 159 => true
  | 227, 128, 128 => true
  | 239, 187, 191 => true
  | _, _, _ => false
  end%N.

(** Leading white space removed, as [parseInt] does first. *)
Fixpoint skip_whitespace (s : string) : string :=
  match s with
  | EmptyString => s
  | String a rest =>
      if is_space1 a then skip_whitespace rest
      else match rest with
           | EmptyString => s
           | String b rest2 =>
               if is_space2 a b then skip_whitespace rest2
               else match rest2 with
                    | EmptyString => s
                    | String c rest3 =>
                        if is_space3 a b c then skip_whitespace rest3 else s
                    end
           end
  end.

(** The longest prefix of decimal digits. *)
Fixpoint digits_prefix (s : string) : Decimal.uint :=
  match s with
  | EmptyString => Decimal.Nil
  | String a rest =>
      match uint_of_char a (Some (digits_prefix rest)) with
      | Some d => d
      | None => Decimal.Nil
      end
  end.

(** [parseInt(s, 10)]: white space, an optional sign, then the longest
    run of digits; [None] is [NaN]. *)
Definition parseInt (s : string) : option Z :=
  let s1 := skip_whitespace s in
  let '(sign, s2) :=
    match s1 with
    | String "-" r => (-1, r)
    | String "+" r => (1, r)
    | _ => (1, s1)
    end in
  match digits_prefix s2 with
  | Decimal.Nil => None
  | d => Some (sign * Z.of_uint d)
  end.

(** [!n] for the result of [parseInt], or for a variable that is
    [undefined] or a number: true on [NaN], [undefined] and zero. *)
Definition falsy (n : option Z) : bool :=
  match n with
  | None => true
  | Some z => z =? 0
  end.

(** [`${n}`] for an integer. *)
Definition Number_toString (n : Z) : string :=
  NilZero.string_of_int (Z.to_int n).

Fixpoint Buffer_eqb (a b : Buffer) : bool :=
  match a, b with
  | [], [] => true
  | x :: a', y :: b' => Byte.eqb x y && Buffer_eqb a' b'
  | _, _ => false
  end.

(** [crypto.timingSafeEqual(a, b)]: throws when the byte lengths differ. *)
Definition timingSafeEqual (a b : Buffer) : Error + bool :=
  if Nat.eqb (List.length a) (List.length b)
  then inr (Buffer_eqb a b)
  else inl TimingSafeEqualLength.

End JS.

(** The message each error carries in the source. *)
Definition message (e : Error) : string :=
  match e with
  | MalformedPair => "invalid signature"
  | MalformedEntry => "invalid signature format"
  | InvalidVersion => "signature scheme version must be an integer"
  | UnknownScheme v =>
      "invalid signature scheme version " ++ JS.Number_toString v
  | DuplicateTimestamp => "timestamp cannot be specified multiple times"
  | InvalidTimestamp => "timestamp must be an integer"
  | MissingTimestamp => "missing timestamp"
  | Expired => "signature has expired"
  | Unsigned => "payload not signed"
  | Untrusted => "untrusted"
  | NoValidSignature => "no valid signature"
  | TimingSafeEqualLength => "Input buffers must have the same byte length"
  end.

(** ** SignatureScheme.ts *)

Record SignatureScheme : Type := {
  sign : Z -> JS.Buffer -> string -> string;
  version : Z
}.

(** The state every operation can see: the array [Schemes.schemes]. *)
Definition Registry : Type := list SignatureScheme.

(** Computations that may throw and may read or write the registry. *)
Definition M (A : Type) : Type := Registry -> (Error + A) * Registry.

Definition ret {A} (a : A) : M A := fun R => (inr a, R).

Definition throw {A} (e : Error) : M A := fun R => (inl e, R).

Definition bind {A B} (m : M A) (k : A -> M B) : M B :=
  fun R =>
    match m R with
    | (inr a, R') => k a R'
    | (inl e, R') => (inl e, R')
    end.

(** [try { m } catch (error) { h(error) }] *)
Definition try_catch {A} (m : M A) (h : Error -> M A) : M A :=
  fun R =>
    match m R with
    | (inr a, R') => (inr a, R')
    | (inl e, R') => h e R'
    end.

(** A library call that throws, run inside [M]. *)
Definition lift {A} (r : Error + A) : M A := fun R => (r, R).

Notation "x <- m ;; k" := (bind m (fun x => k))
  (at level 61, m at next level, right associativity).
Notation "m ;;; k" := (bind m (fun _ => k))
  (at level 61, right associativity).

(** [l.forEach(x => ...)] for a callback that updates local variables [S]
    of the enclosing function and may throw. *)
Fixpoint forEach {A S} (f : S -> A -> M S) (l : list A) (s : S) : M S :=
  match l with
  | [] => ret s
  | x :: rest => s' <- f s x ;; forEach f rest s'
  end.

(** The result of a run, leaving the registry out. *)
Definition result {A} (m : M A) (R : Registry) : Error + A := fst (m R).

Section BuiltinScheme.

(** [crypto.createHmac('sha256', secret)], fed the message, read as
    [digest('hex')]. *)
Variable hmac_sha256_hex : string -> JS.Buffer -> string.

Definition SignatureSchemeV1 : SignatureScheme := {|
  sign := fun t payload secret =>
    hmac_sha256_hex secret
      (JS.Buffer_from (JS.Number_toString t)
         ++ JS.Buffer_from "." ++ payload)%list;
  version := 1
|}.

(** The registry at process start. *)
Definition initial_schemes : Registry := [SignatureSchemeV1].

End BuiltinScheme.

Module Schemes.

Definition schemes : M Registry := fun R => (inr R, R).

Definition set_schemes (R' : Registry) : M unit := fun _ => (inr tt, R').

Definition find (v : Z) : M (option SignatureScheme) :=
  R <- schemes ;;
  ret (List.find (fun s => version s =? v) R).

Definition register (scheme : SignatureScheme) : M unit :=
  found <- find (version scheme) ;;
  match found with
  | Some _ => ret tt
  | None => R <- schemes ;; set_schemes (R ++ [scheme])%list
  end.

Definition unregister (v : Z) : M unit :=
  R <- schemes ;;
  set_schemes (List.filter (fun s => negb (version s =? v)) R).

End Schemes.

(** ** SignatureObject.ts *)

Module SignatureObject.

Record t : Type := mk {
  scheme : SignatureScheme;
  value : string
}.

Definition createSignatureObject (scheme : SignatureScheme) (timestamp : Z)
    (payload : JS.Buffer) (secret : string) : t :=
  let value := sign scheme timestamp payload secret in
  mk scheme value.

Definition parse (value : string) : M t :=
  let parts := JS.split "=" value in
  match parts with
  | [versionStr; signature] =>
      if JS.first_char_differs versionStr "v" then throw MalformedEntry
      else
        let version := JS.parseInt (JS.replace_first "v" versionStr) in
        match version with
        | None => throw InvalidVersion               (* !NaN *)
        | Some v =>
            if v =? 0 then throw InvalidVersion      (* !0 *)
            else
              found <- Schemes.find v ;;
              match found with
              | None => throw (UnknownScheme v)
              | Some scheme => ret (mk scheme signature)
              end
        end
  | _ => throw MalformedEntry                        (* parts.length !== 2 *)
  end.

Definition equals (self sig : t) : M bool :=
  try_catch
    (lift (JS.timingSafeEqual (JS.Buffer_from (value self))
                              (JS.Buffer_from (value sig))))
    (fun _ => ret false).

(** The guard [if (!this.scheme)] never fires: an entry of the model always
    holds a scheme. *)
Definition verify (self : t) (payload : JS.Buffer) (secret : string)
    (timestamp : Z) : M bool :=
  let freshSig := createSignatureObject (scheme self) timestamp payload secret in
  same <- equals self freshSig ;;
  if negb same then ret false else ret true.

Definition toString (self : t) : string :=
  "v" ++ JS.Number_toString (version (scheme self)) ++ "=" ++ value self.

End SignatureObject.

(** ** Signature.ts *)

Definition DEFAULT_SIGNATURE_TOLERANCE : Z := 300.

Record CreateSignatureOptions : Type := {
  cs_timestamp : Z;
  cs_payload : JS.Buffer;
  cs_secrets : list string;
  cs_schemes : option (list SignatureScheme)
}.

Record VerifySignatureOptions : Type := {
  tolerance : option Z;
  ignoreTolerance : option bool;
  now : option (unit -> Z);
  untrustedSchemes : option (list SignatureScheme)
}.

Module Signature.

Record t : Type := mk {
  timestamp : Z;
  signatureObjects : list SignatureObject.t
}.

Definition createSignature (params : CreateSignatureOptions) : M t :=
  let timestamp := cs_timestamp params in
  let payload := cs_payload params in
  let secrets := cs_secrets params in
  schemes <- match cs_schemes params with
             | Some l => ret l
             | None => Schemes.schemes
             end ;;
  signatures <-
    forEach (fun signatures scheme =>
      forEach (fun signatures secret =>
        let s := SignatureObject.createSignatureObject
                   scheme timestamp payload secret in
        ret (signatures ++ [s])%list)
        secrets signatures)
      schemes [] ;;
  ret (mk timestamp signatures).

(** The callback of [pairs.forEach] in [parse]; its local variables are
    [timestamp] ([None] while undefined) and [signatures]. *)
Definition parse_pair (st : option Z * list SignatureObject.t)
    (pair : string) : M (option Z * list SignatureObject.t) :=
  let '(timestamp, signatures) := st in
  let parts := JS.split "=" pair in
  match parts with
  | [k; v] =>
      if String.eqb k "t" then
        if negb (JS.falsy timestamp) then throw DuplicateTimestamp
        else
          let ts := JS.parseInt v in
          if JS.falsy ts then throw InvalidTimestamp
          else ret (ts, signatures)
      else
        sig <- SignatureObject.parse pair ;;
        ret (timestamp, (signatures ++ [sig])%list)
  | _ => throw MalformedPair                         (* parts.length !== 2 *)
  end.

Definition parse (value : string) : M t :=
  let pairs := JS.split "," value in
  st <- forEach parse_pair pairs (None, []) ;;
  let '(timestamp, signatures) := st in
  match timestamp with
  | None => throw MissingTimestamp                   (* !undefined *)
  | Some ts =>
      if ts =? 0 then throw MissingTimestamp         (* !0 *)
      else ret (mk ts signatures)
  end.

(** The inner loop of [verify]: throws ['untrusted'] on the first
    untrusted scheme with the version of [sig]. *)
Definition check_trusted (untrusted : list SignatureScheme)
    (sig : SignatureObject.t) : M unit :=
  forEach (fun (_ : unit) scheme =>
    if version scheme =? version (SignatureObject.scheme sig)
    then throw Untrusted
    else ret tt)
    untrusted tt.

(** The outer loop of [verify]: [continue] on an untrusted or invalid
    entry, [return] on the first valid one, fall through to the last
    [throw]. *)
Fixpoint verify_loop (untrusted : list SignatureScheme)
    (payload : JS.Buffer) (secret : string) (timestamp : Z)
    (sigs : list SignatureObject.t) : M unit :=
  match sigs with
  | [] => throw NoValidSignature
  | sig :: rest =>
      skip <- try_catch (check_trusted untrusted sig ;;; ret false)
                        (fun _ => ret true) ;;
      if (skip : bool) then verify_loop untrusted payload secret timestamp rest
      else
        valid <- SignatureObject.verify sig payload secret timestamp ;;
        if (valid : bool) then ret tt
        else verify_loop untrusted payload secret timestamp rest
  end.

(** [opts?.now ? opts.now() : Date.now()]; [Date_now] is what
    [Date.now()] returns at the call. *)
Definition now_of (opts : option VerifySignatureOptions) (Date_now : Z) : Z :=
  match opts with
  | Some {| now := Some f |} => f tt
  | _ => Date_now
  end.

(** [opts?.tolerance ?? DEFAULT_SIGNATURE_TOLERANCE] *)
Definition tolerance_of (opts : option VerifySignatureOptions) : Z :=
  match opts with
  | Some {| tolerance := Some x |} => x
  | _ => DEFAULT_SIGNATURE_TOLERANCE
  end.

(** [opts?.untrustedSchemes ?? []] *)
Definition untrustedSchemes_of (opts : option VerifySignatureOptions)
  : list SignatureScheme :=
  match opts with
  | Some {| untrustedSchemes := Some l |} => l
  | _ => []
  end.

(** [opts?.ignoreTolerance], read as a condition. *)
Definition ignoreTolerance_of (opts : option VerifySignatureOptions) : bool :=
  match opts with
  | Some {| ignoreTolerance := Some b |} => b
  | _ => false
  end.

Definition verify (self : t) (Date_now : Z) (payload : JS.Buffer)
    (secret : string) (opts : option VerifySignatureOptions) : M unit :=
  let now_ := now_of opts Date_now in
  let tolerance_ := tolerance_of opts in
  let untrusted := untrustedSchemes_of opts in
  (if negb (ignoreTolerance_of opts) then
     if (now_ - timestamp self) >? (tolerance_ * 1000)
     then throw Expired else ret tt
   else ret tt) ;;;
  (if Nat.eqb (List.length (signatureObjects self)) 0
   then throw Unsigned else ret tt) ;;;
  verify_loop untrusted payload secret (timestamp self)
    (signatureObjects self).

Definition toString (self : t) : string :=
  let values := ["t=" ++ JS.Number_toString (timestamp self)] in
  let values :=
    fold_left (fun values s => (values ++ [SignatureObject.toString s])%list)
      (signatureObjects self) values in
  JS.join "," values.

Definition equals (self sig : t) : M bool :=
  try_catch
    (lift (JS.timingSafeEqual (JS.Buffer_from (toString self))
                              (JS.Buffer_from (toString sig))))
    (fun _ => ret false).

End Signature.

(** ** Signature.spec.ts *)

Definition FakeSignatureScheme : SignatureScheme := {|
  sign := fun t payload secret =>
    JS.Number_toString t ++ ":" ++ secret ++ ":("
      ++ JS.Number_toString (Z.of_nat (List.length payload)) ++ ")";
  version := 1337
|}.

(** ['it is wednesday my dudes 🕷️'], 32 bytes of UTF-8. *)
Definition testPayload : JS.Buffer :=
  (JS.Buffer_from "it is wednesday my dudes "
     ++ [xf0; x9f; x95; xb7; xef; xb8; x8f]%byte)%list.

Definition testSecret : string := "du-TY1GUFGk".


(** ** Vocabulary of the statements *)

(** [sig]'s scheme version is among the versions of [untrusted]. *)
Definition is_untrusted (untrusted : list SignatureScheme)
    (sig : SignatureObject.t) : bool :=
  existsb (fun s => version s =? version (SignatureObject.scheme sig)) untrusted.

(** [sig] recomputes under [(payload, secret, timestamp)] to its stored
    value. *)
Definition recomputes (payload : JS.Buffer) (secret : string) (timestamp : Z)
    (sig : SignatureObject.t) : bool :=
  String.eqb (SignatureObject.value sig)
    (sign (SignatureObject.scheme sig) timestamp payload secret).

(** [sig] is trusted and recomputes: the entries that make [verify] return. *)
Definition accepts (untrusted : list SignatureScheme) (payload : JS.Buffer)
    (secret : string) (timestamp : Z) (sig : SignatureObject.t) : bool :=
  negb (is_untrusted untrusted sig) && recomputes payload secret timestamp sig.

(** The tolerance check of [verify] lets the envelope through. *)
Definition tolerance_passes (self : Signature.t) (Date_now : Z)
    (opts : option VerifySignatureOptions) : bool :=
  Signature.ignoreTolerance_of opts
  || (Signature.now_of opts Date_now - Signature.timestamp self
        <=? Signature.tolerance_of opts * 1000).

(** The schemes [createSignature] signs with: [params.schemes], by default
    the registry. *)
Definition effective_schemes (params : CreateSignatureOptions) (R : Registry)
  : list SignatureScheme :=
  match cs_schemes params with
  | Some l => l
  | None => R
  end.

(** [c] occurs in [s]. *)
Fixpoint occurs (c : ascii) (s : string) : bool :=
  match s with
  | EmptyString => false
  | String a rest => Ascii.eqb a c || occurs c rest
  end.

(** [pair] is [t=...]: it splits at ['='] in two parts, the first is [t]. *)
Definition is_timestamp_pair (pair : string) : bool :=
  match JS.split "=" pair with
  | [k; _] => String.eqb k "t"
  | _ => false
  end.

(** Some comma-separated pair of [value] is [t=...]. *)
Definition has_timestamp_pair (value : string) : bool :=
  existsb is_timestamp_pair (JS.split "," value).

(** [s] can stand as a value in the wire format: no [','] and no ['=']. *)
Definition wire_safe (s : string) : bool :=
  negb (occurs "," s) && negb (occurs "=" s).

(** [Number.isSafeInteger(n)]: the integers the number model is exact on. *)
Definition safe_integer (n : Z) : Prop := - 2 ^ 53 < n < 2 ^ 53.

(** The scheme the registry holds for [v], as [Schemes.find] computes it. *)
Definition registered_for (R : Registry) (v : Z) : option SignatureScheme :=
  List.find (fun s => version s =? v) R.

(** The entry that parsing the text of [sig] builds: the value of [sig]
    under the registered scheme of the same version. *)
Definition reparsed (R : Registry) (sig : SignatureObject.t) : SignatureObject.t :=
  match registered_for R (version (SignatureObject.scheme sig)) with
  | Some scheme => SignatureObject.mk scheme (SignatureObject.value sig)
  | None => sig
  end.

(** An entry that parses back: its value holds no separator and its scheme
    has a version other than zero that the registry knows. *)
Definition parses_back (R : Registry) (sig : SignatureObject.t) : Prop :=
  wire_safe (SignatureObject.value sig) = true
  /\ version (SignatureObject.scheme sig) <> 0
  /\ exists found,
       registered_for R (version (SignatureObject.scheme sig)) = Some found.

(** ** Sample values, after Signature.spec.ts *)

Definition sampleTimestamp : Z := 946720800.

(** [Signature.createSignature({timestamp, payload: testPayload, secrets:
    [testSecret, "some-secret"], schemes: [FakeSignatureScheme]})] *)
Definition sampleSignature : Signature.t :=
  Signature.mk sampleTimestamp
    [ SignatureObject.mk FakeSignatureScheme "946720800:du-TY1GUFGk:(32)";
      SignatureObject.mk FakeSignatureScheme "946720800:some-secret:(32)" ].

(** [{ now: () => timestamp + DEFAULT_SIGNATURE_TOLERANCE }] *)
Definition nowWithinTolerance : VerifySignatureOptions := {|
  tolerance := None;
  ignoreTolerance := None;
  now := Some (fun _ => sampleTimestamp + DEFAULT_SIGNATURE_TOLERANCE);
  untrustedSchemes := None
|}.

(** A scheme of version 7 that signs with the secret alone. *)
Definition EchoScheme : SignatureScheme := {|
  sign := fun _ _ secret => secret;
  version := 7
|}.

(** ** Vocabulary of the further properties *)

(** No two schemes of the registry share a version. *)
Definition versions_unique (R : Registry) : Prop := NoDup (map version R).

(** Every lookup that succeeds in [R] gives the same scheme in [R']. *)
Definition extends (R R' : Registry) : Prop :=
  forall v s, registered_for R v = Some s -> registered_for R' v = Some s.

(** The bytes the built-in scheme feeds to the MAC: the three [update]
    calls of [SignatureSchemeV1.sign] in a row. *)
Definition v1_message (t : Z) (payload : JS.Buffer) : JS.Buffer :=
  (JS.Buffer_from (JS.Number_toString t) ++ JS.Buffer_from "." ++ payload)%list.

(** What the wire text shows of an entry: the version of its scheme and its
    value. *)
Definition wire_identity (sig : SignatureObject.t) : Z * string :=
  (version (SignatureObject.scheme sig), SignatureObject.value sig).

(** The version of [scheme] is among the versions of [untrusted]. *)
Definition scheme_untrusted (untrusted : list SignatureScheme)
    (scheme : SignatureScheme) : bool :=
  existsb (fun s => version s =? version scheme) untrusted.

(** [pair] is handed to the entry parser: it is not [t=...]. *)
Definition is_entry_pair (pair : string) : bool := negb (is_timestamp_pair pair).

(** A stand-in for the MAC that always answers with the digest of the
    README's example; it only serves to instantiate statements about the
    built-in scheme. *)
Definition stub_hmac (secret : string) (data : JS.Buffer) : string :=
  "5257a869e7ecee108d8bd".

(** ** Running the monad *)

Lemma bind_run {A B} (m : M A) (k : A -> M B) (R R' : Registry) (a : A) :
  m R = (inr a, R') -> bind m k R = k a R'.
Proof. intros H. unfold bind. now rewrite H. Qed.

Lemma bind_throws {A B} (m : M A) (k : A -> M B) (R R' : Registry) (e : Error) :
  m R = (inl e, R') -> bind m k R = (inl e, R').
Proof. intros H. unfold bind. now rewrite H. Qed.

(** ** The registry *)

Lemma Schemes_find_run (v : Z) (R : Registry) :
  Schemes.find v R = (inr (registered_for R v), R).
Proof. reflexivity. Qed.

(** Registering a version the registry already holds changes nothing. *)
Lemma register_known (scheme found : SignatureScheme) (R : Registry) :
  registered_for R (version scheme) = Some found ->
  Schemes.register scheme R = (inr tt, R).
Proof.
  intros H. unfold Schemes.register.
  rewrite (bind_run _ _ _ _ _ (Schemes_find_run (version scheme) R)).
  now rewrite H.
Qed.

(** Registering a new version appends the scheme. *)
Lemma register_new (scheme : SignatureScheme) (R : Registry) :
  registered_for R (version scheme) = None ->
  Schemes.register scheme R = (inr tt, (R ++ [scheme])%list).
Proof.
  intros H. unfold Schemes.register.
  rewrite (bind_run _ _ _ _ _ (Schemes_find_run (version scheme) R)).
  now rewrite H.
Qed.

(** After [unregister(v)] no scheme of version [v] is left. *)
Lemma unregister_forgets (v : Z) (R : Registry) :
  registered_for (snd (Schemes.unregister v R)) v = None.
Proof.
  unfold registered_for. cbn.
  induction R as [|s R IH]; [reflexivity|]. cbn [filter].
  destruct (version s =? v) eqn:E; cbn [negb]; [exact IH|].
  cbn [List.find]. now rewrite E.
Qed.

(** ** Comparison of buffers *)

Lemma Buffer_eqb_refl (a : JS.Buffer) : JS.Buffer_eqb a a = true.
Proof.
  induction a as [|x a IH]; simpl; [reflexivity|].
  rewrite IH, andb_true_r. now apply Byte.byte_dec_lb.
Qed.

Lemma Buffer_eqb_eq (a b : JS.Buffer) : JS.Buffer_eqb a b = true -> a = b.
Proof.
  revert b; induction a as [|x a IH]; intros [|y b]; simpl; try discriminate.
  - reflexivity.
  - intros H. apply andb_true_iff in H as [Hxy Hab].
    apply Byte.byte_dec_bl in Hxy. f_equal; auto.
Qed.

Lemma Buffer_from_inj (s1 s2 : string) :
  JS.Buffer_from s1 = JS.Buffer_from s2 -> s1 = s2.
Proof.
  unfold JS.Buffer_from. intros H.
  rewrite <- (string_of_list_byte_of_string s1),
          <- (string_of_list_byte_of_string s2).
  now rewrite H.
Qed.

(** The comparison both [equals] methods run, with its [catch]. *)
Lemma timingSafeEqual_caught (s1 s2 : string) (R : Registry) :
  try_catch (lift (JS.timingSafeEqual (JS.Buffer_from s1) (JS.Buffer_from s2)))
            (fun _ => ret false) R
  = (inr (String.eqb s1 s2), R).
Proof.
  unfold try_catch, lift, ret, JS.timingSafeEqual.
  destruct (String.eqb_spec s1 s2) as [->|Hne].
  - rewrite Nat.eqb_refl, Buffer_eqb_refl. reflexivity.
  - destruct (Nat.eqb _ _); [|reflexivity].
    destruct (JS.Buffer_eqb _ _) eqn:E; [|reflexivity].
    apply Buffer_eqb_eq, Buffer_from_inj in E. contradiction.
Qed.

Lemma SignatureObject_equals_run (a b : SignatureObject.t) (R : Registry) :
  SignatureObject.equals a b R
  = (inr (String.eqb (SignatureObject.value a) (SignatureObject.value b)), R).
Proof. apply timingSafeEqual_caught. Qed.

Lemma Signature_equals_run (a b : Signature.t) (R : Registry) :
  Signature.equals a b R
  = (inr (String.eqb (Signature.toString a) (Signature.toString b)), R).
Proof. apply timingSafeEqual_caught. Qed.

(** ** The verification loop *)

Section Verify.

Variables (untrusted : list SignatureScheme) (payload : JS.Buffer)
          (secret : string) (timestamp : Z).

Lemma SignatureObject_verify_run (sig : SignatureObject.t) (R : Registry) :
  SignatureObject.verify sig payload secret timestamp R
  = (inr (recomputes payload secret timestamp sig), R).
Proof.
  unfold SignatureObject.verify, bind.
  rewrite SignatureObject_equals_run. simpl.
  unfold recomputes. now destruct (String.eqb _ _).
Qed.

Lemma check_trusted_run (sig : SignatureObject.t) (R : Registry) :
  Signature.check_trusted untrusted sig R
  = (if is_untrusted untrusted sig then inl Untrusted else inr tt, R).
Proof.
  unfold Signature.check_trusted, is_untrusted.
  induction untrusted as [|s l IH]; simpl; [reflexivity|].
  unfold bind. destruct (version s =? _); simpl; [reflexivity|].
  apply IH.
Qed.

Lemma verify_loop_run (sigs : list SignatureObject.t) (R : Registry) :
  Signature.verify_loop untrusted payload secret timestamp sigs R
  = (if existsb (accepts untrusted payload secret timestamp) sigs
     then inr tt else inl NoValidSignature, R).
Proof.
  induction sigs as [|sig rest IH]; simpl; [reflexivity|].
  unfold bind at 1. unfold try_catch, bind at 1.
  rewrite check_trusted_run. unfold accepts at 1.
  destruct (is_untrusted untrusted sig); simpl.
  - apply IH.
  - unfold bind. rewrite SignatureObject_verify_run.
    destruct (recomputes payload secret timestamp sig); simpl;
      [reflexivity | apply IH].
Qed.

End Verify.

Lemma verify_run (self : Signature.t) (Date_now : Z) (payload : JS.Buffer)
    (secret : string) (opts : option VerifySignatureOptions) (R : Registry) :
  Signature.verify self Date_now payload secret opts R
  = (if negb (tolerance_passes self Date_now opts) then inl Expired
     else match Signature.signatureObjects self with
          | [] => inl Unsigned
          | sigs =>
              if existsb (accepts (Signature.untrustedSchemes_of opts) payload
                            secret (Signature.timestamp self)) sigs
              then inr tt else inl NoValidSignature
          end, R).
Proof.
  destruct self as [ts sigs].
  unfold Signature.verify, tolerance_passes, bind.
  cbn [Signature.timestamp Signature.signatureObjects].
  assert (Hloop : forall R',
    (if Nat.eqb (List.length sigs) 0 then throw Unsigned else ret tt) R'
    = (match sigs with [] => inl Unsigned | _ => inr tt end, R')).
  { intros R'. now destruct sigs. }
  destruct (Signature.ignoreTolerance_of opts); cbn [negb orb].
  - unfold ret at 1. rewrite Hloop.
    destruct sigs as [|sig rest]; [reflexivity|].
    now rewrite verify_loop_run.
  - rewrite Z.gtb_ltb, Z.leb_antisym.
    destruct (_ <? _); cbn [negb]; [reflexivity|].
    unfold ret at 1. rewrite Hloop.
    destruct sigs as [|sig rest]; [reflexivity|].
    now rewrite verify_loop_run.
Qed.

Lemma existsb_first {A} (f : A -> bool) (l : list A) :
  existsb f l = true ->
  exists pre x post,
    l = (pre ++ x :: post)%list /\ f x = true /\ existsb f pre = false.
Proof.
  induction l as [|a l IH]; simpl; [discriminate|].
  destruct (f a) eqn:Fa; simpl.
  - intros _. exists [], a, l. repeat split; auto.
  - intros H. destruct (IH H) as (pre & x & post & -> & Fx & Hpre).
    exists (a :: pre), x, post. simpl. rewrite Fa. repeat split; auto.
Qed.

Lemma existsb_middle {A} (f : A -> bool) (pre post : list A) (x : A) :
  f x = true -> existsb f (pre ++ x :: post) = true.
Proof.
  intros Fx. rewrite existsb_app. simpl. rewrite Fx.
  now rewrite orb_true_r.
Qed.

Lemma existsb_drop {A} (f : A -> bool) (pre post : list A) (x : A) :
  f x = false -> existsb f (pre ++ x :: post) = existsb f (pre ++ post).
Proof.
  intros Fx. rewrite !existsb_app. simpl. now rewrite Fx.
Qed.

Lemma middle_not_nil {A} (pre post : list A) (x : A) :
  (pre ++ x :: post)%list <> [].
Proof. now destruct pre. Qed.

(** What [verify] answers once the tolerance check has passed. *)
Lemma verify_after_tolerance (self : Signature.t) (Date_now : Z)
    (payload : JS.Buffer) (secret : string)
    (opts : option VerifySignatureOptions) (R : Registry) :
  tolerance_passes self Date_now opts = true ->
  result (Signature.verify self Date_now payload secret opts) R
  = match Signature.signatureObjects self with
    | [] => inl Unsigned
    | sigs =>
        if existsb (accepts (Signature.untrustedSchemes_of opts) payload
                      secret (Signature.timestamp self)) sigs
        then inr tt else inl NoValidSignature
    end.
Proof.
  intros Htol. unfold result. rewrite verify_run, Htol. reflexivity.
Qed.

Lemma verify_after_tolerance_nonempty (self : Signature.t) (Date_now : Z)
    (payload : JS.Buffer) (secret : string)
    (opts : option VerifySignatureOptions) (R : Registry) :
  tolerance_passes self Date_now opts = true ->
  Signature.signatureObjects self <> [] ->
  result (Signature.verify self Date_now payload secret opts) R
  = if existsb (accepts (Signature.untrustedSchemes_of opts) payload
                  secret (Signature.timestamp self))
         (Signature.signatureObjects self)
    then inr tt else inl NoValidSignature.
Proof.
  intros Htol Hne. rewrite verify_after_tolerance by exact Htol.
  now destruct (Signature.signatureObjects self).
Qed.

(** ** Verification: claims C1, C2, C8, C10 *)

(** C1. When the tolerance check passes and some entry of the envelope is
    trusted and recomputes under (payload, secret, envelope timestamp) to
    its stored value, [verify] returns without error, whatever the other
    entries hold.  The return happens at the first such entry in stored
    order: the envelope splits as [pre ++ first :: post] where [first] is
    accepted and nothing in [pre] is, the answer is a success for every
    continuation put in the place of [post], and the entries of [pre] alone
    give no success. *)
Theorem verify_succeeds_on_first_match
    (self : Signature.t) (Date_now : Z) (payload : JS.Buffer)
    (secret : string) (opts : option VerifySignatureOptions) (R : Registry)
    (sig : SignatureObject.t) :
  tolerance_passes self Date_now opts = true ->
  In sig (Signature.signatureObjects self) ->
  is_untrusted (Signature.untrustedSchemes_of opts) sig = false ->
  SignatureObject.value sig
    = sign (SignatureObject.scheme sig) (Signature.timestamp self) payload secret ->
  result (Signature.verify self Date_now payload secret opts) R = inr tt
  /\ exists pre first post,
       Signature.signatureObjects self = (pre ++ first :: post)%list
       /\ accepts (Signature.untrustedSchemes_of opts) payload secret
            (Signature.timestamp self) first = true
       /\ existsb (accepts (Signature.untrustedSchemes_of opts) payload secret
                     (Signature.timestamp self)) pre = false
       /\ (forall post',
             result (Signature.verify
                       (Signature.mk (Signature.timestamp self)
                          (pre ++ first :: post'))
                       Date_now payload secret opts) R = inr tt)
       /\ result (Signature.verify
                    (Signature.mk (Signature.timestamp self) pre)
                    Date_now payload secret opts) R <> inr tt.
Proof.
  intros Htol Hin Htrust Hval.
  destruct self as [ts sigs].
  cbn [Signature.signatureObjects Signature.timestamp] in *.
  set (acc := accepts (Signature.untrustedSchemes_of opts) payload secret ts).
  assert (Hacc : acc sig = true).
  { unfold acc, accepts, recomputes.
    rewrite Htrust, Hval, String.eqb_refl. reflexivity. }
  assert (Hex : existsb acc sigs = true).
  { apply existsb_exists. now exists sig. }
  split.
  - rewrite verify_after_tolerance_nonempty; auto.
    + cbn [Signature.signatureObjects Signature.timestamp].
      fold acc. now rewrite Hex.
    + cbn [Signature.signatureObjects]. intros ->. contradiction.
  - destruct (existsb_first _ _ Hex) as (pre & first & post & -> & Hfirst & Hpre).
    exists pre, first, post. repeat split; auto.
    + intros post'. rewrite verify_after_tolerance_nonempty; auto.
      * cbn [Signature.signatureObjects Signature.timestamp]. fold acc.
        now rewrite existsb_middle.
      * apply middle_not_nil.
    + rewrite verify_after_tolerance by exact Htol.
      cbn [Signature.signatureObjects Signature.timestamp].
      destruct pre as [|a pre]; [discriminate|].
      fold acc. rewrite Hpre. discriminate.
Qed.

(** The envelope of the test suite, verified with its second secret: the
    first entry does not recompute, the second does. *)
Lemma verify_succeeds_on_first_match_witness :
  result (Signature.verify sampleSignature 0 testPayload "some-secret"
            (Some nowWithinTolerance)) [FakeSignatureScheme] = inr tt
  /\ exists pre first post,
       Signature.signatureObjects sampleSignature = (pre ++ first :: post)%list
       /\ accepts [] testPayload "some-secret" sampleTimestamp first = true
       /\ existsb (accepts [] testPayload "some-secret" sampleTimestamp) pre
          = false
       /\ (forall post',
             result (Signature.verify
                       (Signature.mk sampleTimestamp (pre ++ first :: post'))
                       0 testPayload "some-secret" (Some nowWithinTolerance))
                    [FakeSignatureScheme] = inr tt)
       /\ result (Signature.verify (Signature.mk sampleTimestamp pre)
                    0 testPayload "some-secret" (Some nowWithinTolerance))
                 [FakeSignatureScheme] <> inr tt.
Proof.
  apply (verify_succeeds_on_first_match sampleSignature 0 testPayload
           "some-secret" (Some nowWithinTolerance) [FakeSignatureScheme]
           (SignatureObject.mk FakeSignatureScheme "946720800:some-secret:(32)")).
  - reflexivity.
  - simpl. right. left. reflexivity.
  - reflexivity.
  - reflexivity.
Defined.

(** C2, the claim as stated fails: with [tolerance: -10] and a clock five
    milliseconds before the timestamp the age is negative and [verify]
    throws 'signature has expired'. *)
Lemma verify_rejects_future_timestamp_under_negative_tolerance :
  Signature.now_of
    (Some {| tolerance := Some (-10); ignoreTolerance := None;
             now := Some (fun _ => 999995); untrustedSchemes := None |}) 0
    - Signature.timestamp (Signature.mk 1000000 []) < 0
  /\ result (Signature.verify (Signature.mk 1000000 []) 0 [] ""
               (Some {| tolerance := Some (-10); ignoreTolerance := None;
                        now := Some (fun _ => 999995);
                        untrustedSchemes := None |}))
            [] = inl Expired.
Proof. split; reflexivity. Qed.

(** C2, amended.  [verify] fails with [Expired] exactly when
    [ignoreTolerance] is not set and [now - timestamp > tolerance * 1000],
    the tolerance defaulting to 300 seconds.  An age equal to
    [tolerance * 1000] does not fail, and under a non-negative tolerance a
    negative age is never rejected by this check. *)
Theorem verify_expired_iff
    (self : Signature.t) (Date_now : Z) (payload : JS.Buffer)
    (secret : string) (opts : option VerifySignatureOptions) (R : Registry) :
  let age := Signature.now_of opts Date_now - Signature.timestamp self in
  let limit := Signature.tolerance_of opts * 1000 in
  let outcome := result (Signature.verify self Date_now payload secret opts) R in
  (outcome = inl Expired
   <-> Signature.ignoreTolerance_of opts = false /\ age > limit)
  /\ (age = limit -> outcome <> inl Expired)
  /\ (0 <= Signature.tolerance_of opts -> age < 0 -> outcome <> inl Expired).
Proof.
  intros age limit outcome.
  assert (Hiff : outcome = inl Expired
                 <-> Signature.ignoreTolerance_of opts = false /\ age > limit).
  { unfold outcome, result. rewrite verify_run. unfold tolerance_passes.
    fold age limit. cbn [fst].
    destruct (Signature.ignoreTolerance_of opts); cbn [orb negb].
    - split; [|intros [H _]; discriminate].
      destruct (Signature.signatureObjects self); [discriminate|].
      destruct (existsb _ _); discriminate.
    - destruct (Z.leb_spec age limit) as [Hle|Hgt]; cbn [negb].
      + split; [|intros [_ H]; lia].
        destruct (Signature.signatureObjects self); [discriminate|].
        destruct (existsb _ _); discriminate.
      + split; [intros _; split; [reflexivity|lia] | reflexivity]. }
  split; [exact Hiff|]. split.
  - intros Heq H. apply Hiff in H. lia.
  - intros Htol Hneg H. apply Hiff in H. lia.
Qed.

(** The envelope of the test suite at the boundary,
    [now = timestamp + 300000], and five milliseconds ahead of the clock. *)
Lemma verify_expired_iff_witness :
  result (Signature.verify sampleSignature 0 testPayload testSecret
            (Some {| tolerance := Some 300; ignoreTolerance := None;
                     now := Some (fun _ => sampleTimestamp + 300000);
                     untrustedSchemes := None |}))
         [FakeSignatureScheme] <> inl Expired
  /\ result (Signature.verify sampleSignature (sampleTimestamp - 5)
               testPayload testSecret None)
            [FakeSignatureScheme] <> inl Expired.
Proof.
  split.
  - apply (proj1 (proj2 (verify_expired_iff sampleSignature 0 testPayload
             testSecret
             (Some {| tolerance := Some 300; ignoreTolerance := None;
                      now := Some (fun _ => sampleTimestamp + 300000);
                      untrustedSchemes := None |})
             [FakeSignatureScheme]))).
    reflexivity.
  - apply (proj2 (proj2 (verify_expired_iff sampleSignature
             (sampleTimestamp - 5) testPayload testSecret None
             [FakeSignatureScheme]))).
    + discriminate.
    + reflexivity.
Defined.

(** C8.  An entry whose scheme version is among [untrustedSchemes] is
    skipped: the loop answers as if the entry were not there, so it neither
    causes a success nor stops the scan of the entries after it.  When the
    tolerance check has passed and the entry list is not empty, a loop that
    finds no trusted entry that recomputes fails with [NoValidSignature],
    also when every entry is untrusted.  [Unsigned] is thrown exactly
    when the tolerance check has passed and the entry list is empty. *)
Theorem untrusted_entries_are_skipped
    (self : Signature.t) (Date_now : Z) (payload : JS.Buffer)
    (secret : string) (opts : option VerifySignatureOptions) (R : Registry) :
  let U := Signature.untrustedSchemes_of opts in
  let ts := Signature.timestamp self in
  let sigs := Signature.signatureObjects self in
  let outcome := result (Signature.verify self Date_now payload secret opts) R in
  (forall pre u post R',
      is_untrusted U u = true ->
      Signature.verify_loop U payload secret ts (pre ++ u :: post) R'
      = Signature.verify_loop U payload secret ts (pre ++ post) R')
  /\ (tolerance_passes self Date_now opts = true -> sigs <> [] ->
      (forall sig, In sig sigs ->
         is_untrusted U sig = true \/ recomputes payload secret ts sig = false) ->
      outcome = inl NoValidSignature)
  /\ (tolerance_passes self Date_now opts = true -> sigs <> [] ->
      (forall sig, In sig sigs -> is_untrusted U sig = true) ->
      outcome = inl NoValidSignature)
  /\ (outcome = inl Unsigned
      <-> tolerance_passes self Date_now opts = true /\ sigs = []).
Proof.
  intros U ts sigs outcome.
  assert (Hnone : tolerance_passes self Date_now opts = true -> sigs <> [] ->
      (forall sig, In sig sigs ->
         is_untrusted U sig = true \/ recomputes payload secret ts sig = false) ->
      outcome = inl NoValidSignature).
  { intros Htol Hne Hall. unfold outcome.
    rewrite verify_after_tolerance_nonempty by assumption.
    fold U ts sigs.
    replace (existsb (accepts U payload secret ts) sigs) with false;
      [reflexivity|].
    symmetry. apply not_true_is_false. intros Hex.
    apply existsb_exists in Hex as (sig & Hin & Hacc).
    unfold accepts in Hacc. apply andb_true_iff in Hacc as [Ht Hr].
    destruct (Hall sig Hin) as [H|H]; rewrite H in *; discriminate. }
  split; [|split; [exact Hnone|split]].
  - intros pre u post R' Hu. rewrite !verify_loop_run.
    rewrite existsb_drop; [reflexivity|].
    unfold accepts. now rewrite Hu.
  - intros Htol Hne Hall. apply Hnone; auto.
  - unfold outcome, result. rewrite verify_run. fold sigs U ts. cbn [fst].
    destruct (tolerance_passes self Date_now opts); cbn [negb].
    + destruct sigs as [|sig rest].
      * split; auto.
      * split; [|intros [_ H]; discriminate].
        destruct (existsb _ _); discriminate.
    + split; [discriminate | intros [H _]; discriminate].
Qed.

(** The envelope of the test suite with its only scheme untrusted: nothing
    is compared and verification fails with [NoValidSignature]. *)
Lemma untrusted_entries_are_skipped_witness :
  result (Signature.verify sampleSignature 0 testPayload testSecret
            (Some {| tolerance := None; ignoreTolerance := None;
                     now := Some (fun _ => sampleTimestamp + 300);
                     untrustedSchemes := Some [FakeSignatureScheme] |}))
         [FakeSignatureScheme] = inl NoValidSignature.
Proof.
  apply (proj1 (proj2 (proj2 (untrusted_entries_are_skipped sampleSignature 0
           testPayload testSecret
           (Some {| tolerance := None; ignoreTolerance := None;
                    now := Some (fun _ => sampleTimestamp + 300);
                    untrustedSchemes := Some [FakeSignatureScheme] |})
           [FakeSignatureScheme])))).
  - reflexivity.
  - discriminate.
  - intros sig [<-|[<-|[]]]; reflexivity.
Defined.

(** C10.  [verify] neither reads nor writes the registry: two runs on the
    same envelope, payload, secret, options and clock answer alike under any
    two registries, in particular before and after a scheme is
    unregistered, and the registry is left as it was. *)
Theorem verify_ignores_registry
    (self : Signature.t) (Date_now : Z) (payload : JS.Buffer)
    (secret : string) (opts : option VerifySignatureOptions)
    (R1 R2 : Registry) (v : Z) :
  result (Signature.verify self Date_now payload secret opts) R1
  = result (Signature.verify self Date_now payload secret opts) R2
  /\ result (Signature.verify self Date_now payload secret opts)
            (snd (Schemes.unregister v R1))
     = result (Signature.verify self Date_now payload secret opts) R1
  /\ snd (Signature.verify self Date_now payload secret opts R1) = R1.
Proof.
  unfold result. rewrite !verify_run. repeat split.
Qed.

(** ** Equality: claim C9 *)

(** Whatever the guarded computation throws, the [catch] of the two
    [equals] methods turns it into [false]. *)
Lemma catch_all_returns (m : M bool) (R : Registry) :
  exists r R', try_catch m (fun _ => ret false) R = (inr r, R').
Proof.
  unfold try_catch, ret. destruct (m R) as [[e|r] R']; eauto.
Qed.

Lemma timingSafeEqual_length_mismatch (a b : JS.Buffer) :
  List.length a <> List.length b ->
  JS.timingSafeEqual a b = inl TimingSafeEqualLength.
Proof.
  intros H. unfold JS.timingSafeEqual.
  now apply Nat.eqb_neq in H as ->.
Qed.

(** C9.  [SignatureObject.equals] and [Signature.equals] always return a
    boolean and never throw.  When the two byte strings they compare differ
    in length, [crypto.timingSafeEqual] throws and the answer is [false];
    more generally whatever the comparison throws is caught and answered
    with [false]. *)
Theorem equals_never_throws
    (a b : SignatureObject.t) (E F : Signature.t) (R : Registry) :
  (exists r : bool,
      SignatureObject.equals a b R = (inr r, R)
      /\ (List.length (JS.Buffer_from (SignatureObject.value a))
            <> List.length (JS.Buffer_from (SignatureObject.value b)) ->
          r = false)
      /\ (forall e,
            JS.timingSafeEqual (JS.Buffer_from (SignatureObject.value a))
                               (JS.Buffer_from (SignatureObject.value b))
              = inl e -> r = false))
  /\ (exists r : bool,
      Signature.equals E F R = (inr r, R)
      /\ (List.length (JS.Buffer_from (Signature.toString E))
            <> List.length (JS.Buffer_from (Signature.toString F)) ->
          r = false)
      /\ (forall e,
            JS.timingSafeEqual (JS.Buffer_from (Signature.toString E))
                               (JS.Buffer_from (Signature.toString F))
              = inl e -> r = false))
  /\ (forall (m : M bool) (R0 : Registry),
        exists r R', try_catch m (fun _ => ret false) R0 = (inr r, R')).
Proof.
  assert (Hgen : forall s1 s2 : string,
    exists r : bool,
      try_catch (lift (JS.timingSafeEqual (JS.Buffer_from s1) (JS.Buffer_from s2)))
                (fun _ => ret false) R = (inr r, R)
      /\ (List.length (JS.Buffer_from s1) <> List.length (JS.Buffer_from s2) ->
          r = false)
      /\ (forall e,
            JS.timingSafeEqual (JS.Buffer_from s1) (JS.Buffer_from s2) = inl e ->
            r = false)).
  { intros s1 s2. unfold try_catch, lift, ret.
    destruct (JS.timingSafeEqual _ _) as [e|r] eqn:T.
    - exists false. repeat split.
    - exists r. split; [reflexivity|]. split.
      + intros Hlen. apply timingSafeEqual_length_mismatch in Hlen.
        rewrite Hlen in T. discriminate.
      + intros e He. discriminate. }
  split; [apply Hgen|]. split; [apply Hgen|].
  intros m R0. apply catch_all_returns.
Qed.

(** Two entries whose values have 3 and 4 bytes. *)
Lemma equals_never_throws_witness :
  exists r : bool,
    SignatureObject.equals (SignatureObject.mk FakeSignatureScheme "abc")
                           (SignatureObject.mk FakeSignatureScheme "abcd")
                           [FakeSignatureScheme]
      = (inr r, [FakeSignatureScheme])
    /\ r = false.
Proof.
  destruct (proj1 (equals_never_throws
              (SignatureObject.mk FakeSignatureScheme "abc")
              (SignatureObject.mk FakeSignatureScheme "abcd")
              sampleSignature sampleSignature [FakeSignatureScheme]))
    as (r & Hrun & Hlen & _).
  exists r. split; [exact Hrun|].
  apply Hlen. simpl. discriminate.
Defined.

(** ** Signing: claim C4 *)

Section Product.

Context {A B C : Type} (f : A -> C -> B) (cs : list C).

Lemma length_flat_map_uniform (l : list A) :
  List.length (flat_map (fun a => map (f a) cs) l)
  = (List.length l * List.length cs)%nat.
Proof.
  induction l as [|a l IH]; simpl; [reflexivity|].
  now rewrite length_app, length_map, IH.
Qed.

Lemma nth_error_flat_map_uniform (l : list A) (i j : nat) (a : A) (c : C) :
  nth_error l i = Some a ->
  nth_error cs j = Some c ->
  nth_error (flat_map (fun a => map (f a) cs) l) (i * List.length cs + j)
  = Some (f a c).
Proof.
  revert i; induction l as [|x l IH]; intros [|i] Hi Hj; simpl in *;
    try discriminate.
  - injection Hi as ->.
    rewrite nth_error_app1.
    + now apply map_nth_error.
    + rewrite length_map. apply nth_error_Some. congruence.
  - rewrite nth_error_app2; rewrite length_map; [|lia].
    replace (List.length cs + i * List.length cs + j - List.length cs)%nat
      with (i * List.length cs + j)%nat by lia.
    now apply IH.
Qed.

End Product.

Section Pushes.

Variables (timestamp : Z) (payload : JS.Buffer) (secrets : list string).

Lemma forEach_secrets_run (scheme : SignatureScheme) (l : list string)
    (acc : list SignatureObject.t) (R : Registry) :
  forEach (fun signatures secret =>
             ret (signatures ++ [SignatureObject.createSignatureObject
                                   scheme timestamp payload secret])%list) l acc R
  = (inr (acc ++ map (SignatureObject.createSignatureObject
                        scheme timestamp payload) l)%list, R).
Proof.
  revert acc; induction l as [|s l IH]; intros acc; simpl.
  - now rewrite app_nil_r.
  - unfold bind, ret at 1. rewrite IH, <- app_assoc. reflexivity.
Qed.

Lemma forEach_schemes_run (l : list SignatureScheme)
    (acc : list SignatureObject.t) (R : Registry) :
  forEach (fun signatures scheme =>
             forEach (fun signatures secret =>
                        ret (signatures ++ [SignatureObject.createSignatureObject
                                   scheme timestamp payload secret])%list)
                     secrets signatures) l acc R
  = (inr (acc ++ flat_map (fun scheme => map (SignatureObject.createSignatureObject
                                       scheme timestamp payload) secrets) l)%list,
     R).
Proof.
  revert acc; induction l as [|s l IH]; intros acc; simpl.
  - now rewrite app_nil_r.
  - unfold bind. rewrite forEach_secrets_run, IH, <- app_assoc. reflexivity.
Qed.

End Pushes.

Lemma createSignature_run (params : CreateSignatureOptions) (R : Registry) :
  Signature.createSignature params R
  = (inr (Signature.mk (cs_timestamp params)
            (flat_map
               (fun scheme =>
                  map (SignatureObject.createSignatureObject scheme
                         (cs_timestamp params) (cs_payload params))
                      (cs_secrets params))
               (effective_schemes params R))), R).
Proof.
  unfold Signature.createSignature, effective_schemes. cbv zeta.
  destruct (cs_schemes params) as [l|];
    (erewrite bind_run by reflexivity);
    (erewrite bind_run by apply forEach_schemes_run);
    reflexivity.
Qed.

(** C4.  [createSignature] returns an envelope with one entry per pair of
    an effective scheme and a secret, [|schemes| * |secrets|] in all, laid
    out scheme by scheme and, within a scheme, secret by secret: the entry
    at position [i * |secrets| + j] is the signature of scheme [i] with
    secret [j].  With schemes [[A, B]] and secrets [[s1, s2]] the entries
    are A/s1, A/s2, B/s1, B/s2. *)
Theorem createSignature_cartesian_product
    (params : CreateSignatureOptions) (R : Registry) :
  let schemes := effective_schemes params R in
  let secrets := cs_secrets params in
  let entry scheme secret :=
    SignatureObject.createSignatureObject scheme (cs_timestamp params)
      (cs_payload params) secret in
  exists E : Signature.t,
    Signature.createSignature params R = (inr E, R)
    /\ Signature.timestamp E = cs_timestamp params
    /\ Signature.signatureObjects E
       = flat_map (fun scheme => map (entry scheme) secrets) schemes
    /\ List.length (Signature.signatureObjects E)
       = (List.length schemes * List.length secrets)%nat
    /\ (forall i j scheme secret,
          nth_error schemes i = Some scheme ->
          nth_error secrets j = Some secret ->
          nth_error (Signature.signatureObjects E)
                    (i * List.length secrets + j)
          = Some (entry scheme secret))
    /\ (forall A B s1 s2,
          schemes = [A; B] -> secrets = [s1; s2] ->
          Signature.signatureObjects E
          = [entry A s1; entry A s2; entry B s1; entry B s2]).
Proof.
  intros schemes secrets entry.
  eexists. split; [apply createSignature_run|].
  cbn [Signature.timestamp Signature.signatureObjects].
  fold schemes secrets. split; [reflexivity|]. split; [reflexivity|].
  split; [apply length_flat_map_uniform|]. split.
  - intros i j scheme secret Hi Hj.
    now apply (nth_error_flat_map_uniform entry).
  - intros A B s1 s2 -> ->. reflexivity.
Qed.

(** Two schemes and two secrets: the entry at position [1 * 2 + 0] is the
    one of the second scheme with the first secret. *)
Lemma createSignature_cartesian_product_witness :
  exists E : Signature.t,
    Signature.createSignature
      {| cs_timestamp := sampleTimestamp; cs_payload := testPayload;
         cs_secrets := [testSecret; "some-secret"];
         cs_schemes := Some [FakeSignatureScheme; EchoScheme] |}
      [FakeSignatureScheme] = (inr E, [FakeSignatureScheme])
    /\ nth_error (Signature.signatureObjects E) 2
       = Some (SignatureObject.mk EchoScheme testSecret).
Proof.
  destruct (createSignature_cartesian_product
              {| cs_timestamp := sampleTimestamp; cs_payload := testPayload;
                 cs_secrets := [testSecret; "some-secret"];
                 cs_schemes := Some [FakeSignatureScheme; EchoScheme] |}
              [FakeSignatureScheme])
    as (E & Hrun & _ & _ & _ & Hnth & _).
  exists E. split; [exact Hrun|].
  apply (Hnth 1%nat 0%nat EchoScheme testSecret); reflexivity.
Defined.

(** ** Parsing an entry: claim C6 *)

(** Entry parsing leaves the registry as it is. *)
Lemma SignatureObject_parse_run (value : string) (R : Registry) :
  SignatureObject.parse value R = (result (SignatureObject.parse value) R, R).
Proof.
  unfold result, SignatureObject.parse.
  destruct (JS.split "=" value) as [|versionStr [|signature [|x l]]];
    try reflexivity.
  destruct (JS.first_char_differs versionStr "v"); [reflexivity|].
  destruct (JS.parseInt _) as [v|]; [|reflexivity].
  destruct (v =? 0); [reflexivity|].
  unfold bind. rewrite Schemes_find_run.
  destruct (registered_for R _); reflexivity.
Qed.

(** The entry parser on a key [v<rem>], by the value of [parseInt(rem)]. *)
Lemma SignatureObject_parse_versioned (text rem val : string) (R : Registry) :
  JS.split "=" text = [String "v" rem; val] ->
  result (SignatureObject.parse text) R
  = match JS.parseInt rem with
    | None => inl InvalidVersion
    | Some v =>
        if v =? 0 then inl InvalidVersion
        else match registered_for R v with
             | Some scheme => inr (SignatureObject.mk scheme val)
             | None => inl (UnknownScheme v)
             end
    end.
Proof.
  intros Hsplit. unfold result, SignatureObject.parse. rewrite Hsplit.
  cbn [JS.first_char_differs JS.replace_first].
  rewrite Ascii.eqb_refl. cbn [negb].
  destruct (JS.parseInt rem) as [v|]; [|reflexivity].
  destruct (v =? 0); [reflexivity|].
  unfold bind. rewrite Schemes_find_run.
  destruct (registered_for R _); reflexivity.
Qed.

(** C6, the claim as stated fails: the key [v-1] has the remainder [-1],
    which parses to the non-positive integer -1, and the entry goes on to
    the registry lookup, which fails with [UnknownScheme]; the key
    [v1337x] has a remainder that is not numeric and parses as an entry of
    scheme 1337. *)
Lemma negative_version_reaches_lookup :
  JS.parseInt "-1" = Some (-1)
  /\ result (SignatureObject.parse "v-1=abc") [FakeSignatureScheme]
     = inl (UnknownScheme (-1))
  /\ result (SignatureObject.parse "v-1=abc") [FakeSignatureScheme]
     <> inl InvalidVersion
  /\ result (SignatureObject.parse "v1337x=abc") [FakeSignatureScheme]
     = inr (SignatureObject.mk FakeSignatureScheme "abc").
Proof. repeat split. discriminate. Qed.

(** C6, amended.  For an entry text [key=value] whose key is ['v']
    followed by [rem], entry parsing fails with [InvalidVersion] exactly
    when [parseInt(rem, 10)] is [NaN] or zero; every other integer,
    positive or negative, goes on to the registry lookup, which yields the
    entry of the first registered scheme of that version, or fails with
    [UnknownScheme] when there is none. *)
Theorem entry_version_check (text rem val : string) (R : Registry) :
  JS.split "=" text = [String "v" rem; val] ->
  (result (SignatureObject.parse text) R = inl InvalidVersion
   <-> JS.falsy (JS.parseInt rem) = true)
  /\ (forall v, JS.parseInt rem = Some v -> v <> 0 ->
        result (SignatureObject.parse text) R
        = match registered_for R v with
          | Some scheme => inr (SignatureObject.mk scheme val)
          | None => inl (UnknownScheme v)
          end).
Proof.
  intros Hsplit.
  rewrite (SignatureObject_parse_versioned text rem val R Hsplit).
  split.
  - destruct (JS.parseInt rem) as [v|]; cbn [JS.falsy]; [|tauto].
    destruct (v =? 0); [tauto|].
    split; [|discriminate].
    destruct (registered_for R _); discriminate.
  - intros v -> Hv. apply Z.eqb_neq in Hv. now rewrite Hv.
Qed.

(** The entry [v-1=abc] against a registry without a scheme -1. *)
Lemma entry_version_check_witness :
  result (SignatureObject.parse "v-1=abc") [FakeSignatureScheme]
  = inl (UnknownScheme (-1)).
Proof.
  apply (proj2 (entry_version_check "v-1=abc" "-1" "abc"
                  [FakeSignatureScheme] eq_refl) (-1)).
  - reflexivity.
  - discriminate.
Defined.

(** ** Parsing an envelope: claims C5 and C7 *)

Lemma SignatureObject_parse_not_missing (pair : string) (R : Registry) :
  result (SignatureObject.parse pair) R <> inl MissingTimestamp.
Proof.
  unfold result, SignatureObject.parse.
  destruct (JS.split "=" pair) as [|versionStr [|signature [|x l]]];
    try discriminate.
  destruct (JS.first_char_differs versionStr "v"); [discriminate|].
  destruct (JS.parseInt _) as [v|]; [|discriminate].
  destruct (v =? 0); [discriminate|].
  unfold bind. rewrite Schemes_find_run.
  destruct (registered_for R _); discriminate.
Qed.

Lemma SignatureObject_parse_needs_two_parts (pair : string) (R : Registry) :
  (forall k v, JS.split "=" pair <> [k; v]) ->
  result (SignatureObject.parse pair) R = inl MalformedEntry.
Proof.
  intros H. unfold result, SignatureObject.parse.
  destruct (JS.split "=" pair) as [|k [|v [|x l]]]; try reflexivity.
  now destruct (H k v).
Qed.

(** The callback of [parse] on a pair that is not [t=...]: the entry
    parser decides, except that a pair without exactly two parts is
    refused before it is asked. *)
Lemma parse_pair_entry (timestamp : option Z) (sigs : list SignatureObject.t)
    (pair : string) (R : Registry) :
  is_timestamp_pair pair = false ->
  match result (SignatureObject.parse pair) R with
  | inr sig =>
      Signature.parse_pair (timestamp, sigs) pair R
      = (inr (timestamp, (sigs ++ [sig])%list), R)
  | inl _ =>
      exists e, Signature.parse_pair (timestamp, sigs) pair R = (inl e, R)
                /\ e <> MissingTimestamp
  end.
Proof.
  unfold is_timestamp_pair. intros Ht.
  pose proof (SignatureObject_parse_not_missing pair R) as Hnm.
  pose proof (SignatureObject_parse_needs_two_parts pair R) as Htwo.
  unfold Signature.parse_pair.
  destruct (JS.split "=" pair) as [|k [|v [|x l]]].
  1, 2, 4: rewrite Htwo by discriminate; eexists; split;
    [reflexivity | discriminate].
  rewrite Ht. unfold bind. rewrite SignatureObject_parse_run.
  destruct (result (SignatureObject.parse pair) R) as [e|sig].
  - exists e. split; [reflexivity | congruence].
  - reflexivity.
Qed.

(** The loop of [parse] over pairs none of which is [t=...]: either every
    pair is an entry and the timestamp is still undefined at the end, or
    the first pair that is not an entry throws. *)
Lemma forEach_parse_pair_entries (pairs : list string)
    (sigs : list SignatureObject.t) (R : Registry) :
  existsb is_timestamp_pair pairs = false ->
  (exists sigs',
      forEach Signature.parse_pair pairs (None, sigs) R
      = (inr (None, sigs'), R)
      /\ forall pair, In pair pairs ->
           exists sig, result (SignatureObject.parse pair) R = inr sig)
  \/ (exists e,
      forEach Signature.parse_pair pairs (None, sigs) R = (inl e, R)
      /\ e <> MissingTimestamp
      /\ exists pair e', In pair pairs
           /\ result (SignatureObject.parse pair) R = inl e').
Proof.
  revert sigs; induction pairs as [|pair rest IH]; intros sigs Hno.
  - left. exists sigs. split; [reflexivity | intros ? []].
  - simpl in Hno. apply orb_false_iff in Hno as [Hpair Hrest].
    pose proof (parse_pair_entry None sigs pair R Hpair) as Hstep.
    cbn [forEach].
    destruct (result (SignatureObject.parse pair) R) as [e0|sig] eqn:Hparse.
    + right. destruct Hstep as (e & Hrun & Hne).
      exists e. split; [now apply bind_throws|]. split; [exact Hne|].
      exists pair, e0. split; [now left | exact Hparse].
    + rewrite (bind_run _ _ _ _ _ Hstep).
      destruct (IH (sigs ++ [sig])%list Hrest)
        as [(sigs' & Hrun & Hall) | (e & Hrun & Hne & pair' & e' & Hin & He')].
      * left. exists sigs'. split; [exact Hrun|].
        intros p [<-|Hin]; [now exists sig | now apply Hall].
      * right. exists e. split; [exact Hrun|]. split; [exact Hne|].
        exists pair', e'. split; [now right | exact He'].
Qed.

(** C5, the claim as stated fails: ["v999=abc"] has no [t=] pair and its
    parsing fails with [UnknownScheme 999], as the test suite expects, not
    with [MissingTimestamp]. *)
Lemma unknown_scheme_precedes_missing_timestamp :
  has_timestamp_pair "v999=abc" = false
  /\ result (Signature.parse "v999=abc") [FakeSignatureScheme]
     = inl (UnknownScheme 999)
  /\ message (UnknownScheme 999) = "invalid signature scheme version 999"
  /\ result (Signature.parse "v999=abc") [FakeSignatureScheme]
     <> inl MissingTimestamp.
Proof. repeat split. discriminate. Qed.

(** Parsing ["v999=abc"] when the registry holds no scheme 999. *)
Lemma parse_v999 (R : Registry) :
  registered_for R 999 = None ->
  result (Signature.parse "v999=abc") R = inl (UnknownScheme 999).
Proof.
  intros Hnone.
  assert (Hentry : SignatureObject.parse "v999=abc" R
                   = (inl (UnknownScheme 999), R)).
  { rewrite SignatureObject_parse_run.
    rewrite (SignatureObject_parse_versioned "v999=abc" "999" "abc" R eq_refl).
    change (JS.parseInt "999") with (Some 999). cbn [Z.eqb].
    rewrite Hnone. reflexivity. }
  assert (Hpair : Signature.parse_pair (None, []) "v999=abc" R
                  = (inl (UnknownScheme 999), R)).
  { unfold Signature.parse_pair.
    change (JS.split "=" "v999=abc") with ["v999"; "abc"].
    change (String.eqb "v999" "t") with false. cbv iota.
    now apply bind_throws. }
  unfold result, Signature.parse.
  change (JS.split "," "v999=abc") with ["v999=abc"]. cbn [forEach].
  rewrite (bind_throws _ _ R R (UnknownScheme 999)); [reflexivity|].
  apply bind_throws. exact Hpair.
Qed.

(** C5, amended.  Parsing a header string without a [t=] pair always
    fails.  It fails with [MissingTimestamp] exactly when every
    comma-separated pair parses as an entry; otherwise the loop over the
    pairs has thrown before the timestamp is looked at.  In particular
    ["v999=abc"], where version 999 has no registered scheme, fails with
    [UnknownScheme 999]. *)
Theorem parse_without_timestamp_fails (value : string) (R : Registry) :
  (has_timestamp_pair value = false ->
   exists e,
     result (Signature.parse value) R = inl e
     /\ (e = MissingTimestamp
         <-> forall pair, In pair (JS.split "," value) ->
               exists sig, result (SignatureObject.parse pair) R = inr sig))
  /\ (registered_for R 999 = None ->
      result (Signature.parse "v999=abc") R = inl (UnknownScheme 999)).
Proof.
  split; [|apply parse_v999].
  unfold has_timestamp_pair. intros Hno.
  unfold result, Signature.parse.
  destruct (forEach_parse_pair_entries (JS.split "," value) [] R Hno)
    as [(sigs' & Hrun & Hall) | (e & Hrun & Hne & pair & e' & Hin & He')].
  - exists MissingTimestamp. rewrite (bind_run _ _ _ _ _ Hrun).
    split; [reflexivity|]. split; [intros _; exact Hall | reflexivity].
  - exists e. rewrite (bind_throws _ _ _ _ _ Hrun).
    split; [reflexivity|]. split; [contradiction|].
    intros Hall. destruct (Hall pair Hin) as (sig & Hsig).
    unfold result in He'. congruence.
Qed.

(** A header with one entry of a registered scheme and no timestamp, and
    the header ["v999=abc"], under the registry of the test suite. *)
Lemma parse_without_timestamp_fails_witness :
  (exists e,
     result (Signature.parse "v1337=abc") [FakeSignatureScheme] = inl e
     /\ (e = MissingTimestamp
         <-> forall pair, In pair (JS.split "," "v1337=abc") ->
               exists sig, result (SignatureObject.parse pair)
                                  [FakeSignatureScheme] = inr sig))
  /\ result (Signature.parse "v999=abc") [FakeSignatureScheme]
     = inl (UnknownScheme 999).
Proof.
  split.
  - apply (proj1 (parse_without_timestamp_fails "v1337=abc"
                    [FakeSignatureScheme])).
    reflexivity.
  - apply (proj2 (parse_without_timestamp_fails "v1337=abc"
                    [FakeSignatureScheme])).
    reflexivity.
Defined.

(** C7, the claim as stated fails: the wire string ["t=-5,v1337=abc"]
    parses to an envelope whose timestamp is -5. *)
Lemma parse_accepts_negative_timestamp :
  result (Signature.parse "t=-5,v1337=abc") [FakeSignatureScheme]
  = inr (Signature.mk (-5) [SignatureObject.mk FakeSignatureScheme "abc"])
  /\ ~ 0 < Signature.timestamp
             (Signature.mk (-5) [SignatureObject.mk FakeSignatureScheme "abc"]).
Proof. split; [reflexivity | discriminate]. Qed.

(** C7, amended.  Every envelope that [parse] returns has an integer
    timestamp other than zero, negative values included; [createSignature]
    always returns an envelope and stores the timestamp it is given without
    checking it. *)
Theorem envelope_timestamp
    (value : string) (params : CreateSignatureOptions) (R : Registry) :
  (forall E, result (Signature.parse value) R = inr E ->
             Signature.timestamp E <> 0)
  /\ (exists E, Signature.createSignature params R = (inr E, R)
                /\ Signature.timestamp E = cs_timestamp params).
Proof.
  split.
  - intros E. unfold result, Signature.parse, bind.
    destruct (forEach _ _ _ R) as [[e|[[ts|] sigs]] R']; cbn [fst];
      try discriminate.
    destruct (ts =? 0) eqn:Hts; [discriminate|].
    intros [= <-]. now apply Z.eqb_neq.
  - eexists. split; [apply createSignature_run | reflexivity].
Qed.

(** The header ["t=-5,v1337=abc"]. *)
Lemma envelope_timestamp_witness :
  Signature.timestamp
    (Signature.mk (-5) [SignatureObject.mk FakeSignatureScheme "abc"]) <> 0.
Proof.
  apply (proj1 (envelope_timestamp "t=-5,v1337=abc"
                  {| cs_timestamp := 0; cs_payload := []; cs_secrets := [];
                     cs_schemes := None |}
                  [FakeSignatureScheme])).
  reflexivity.
Defined.

(** ** Splitting and joining *)

Lemma occurs_append (c : ascii) (a b : string) :
  occurs c (a ++ b) = occurs c a || occurs c b.
Proof.
  induction a as [|x a IH]; simpl; [reflexivity|].
  now rewrite IH, orb_assoc.
Qed.

Lemma split_without (sep : ascii) (s : string) :
  occurs sep s = false -> JS.split sep s = [s].
Proof.
  induction s as [|a s IH]; simpl; [reflexivity|].
  intros H. apply orb_false_iff in H as [Ha Hs].
  now rewrite Ha, (IH Hs).
Qed.

Lemma split_append (sep : ascii) (s rest : string) :
  occurs sep s = false ->
  JS.split sep (s ++ String sep rest) = s :: JS.split sep rest.
Proof.
  induction s as [|a s IH]; simpl.
  - intros _. now rewrite Ascii.eqb_refl.
  - intros H. apply orb_false_iff in H as [Ha Hs].
    now rewrite Ha, (IH Hs).
Qed.

Lemma split_join (sep : ascii) (x : string) (l : list string) :
  occurs sep x = false ->
  (forall s, In s l -> occurs sep s = false) ->
  JS.split sep (JS.join (String sep "") (x :: l)) = x :: l.
Proof.
  unfold JS.join. revert x; induction l as [|y l IH]; intros x Hx Hl.
  - simpl. now apply split_without.
  - change (concat (String sep "") (x :: y :: l))
      with (x ++ String sep (concat (String sep "") (y :: l))).
    rewrite split_append by exact Hx. f_equal.
    apply IH; [apply Hl; now left | intros s Hs; apply Hl; now right].
Qed.

Lemma fold_left_push {A B} (f : A -> B) (l : list A) (acc : list B) :
  fold_left (fun values s => (values ++ [f s])%list) l acc
  = (acc ++ map f l)%list.
Proof.
  revert acc; induction l as [|a l IH]; intros acc; simpl.
  - now rewrite app_nil_r.
  - now rewrite IH, <- app_assoc.
Qed.

Lemma Signature_toString_join (E : Signature.t) :
  Signature.toString E
  = JS.join ","
      (("t=" ++ JS.Number_toString (Signature.timestamp E))
         :: map SignatureObject.toString (Signature.signatureObjects E)).
Proof. unfold Signature.toString. now rewrite fold_left_push. Qed.

(** ** Numbers in decimal *)

Lemma uint_string_has_no (c : ascii) (d : Decimal.uint) :
  c = ","%char \/ c = "="%char ->
  occurs c (NilEmpty.string_of_uint d) = false.
Proof.
  intros [-> | ->]; induction d; simpl; auto.
Qed.

Lemma Number_toString_has_no (c : ascii) (n : Z) :
  c = ","%char \/ c = "="%char ->
  occurs c (JS.Number_toString n) = false.
Proof.
  intros Hc. unfold JS.Number_toString.
  assert (Hu : forall d, occurs c (NilZero.string_of_uint d) = false).
  { intros d. unfold NilZero.string_of_uint.
    destruct d; try apply (uint_string_has_no c _ Hc).
    destruct Hc as [-> | ->]; reflexivity. }
  destruct (Z.to_int n) as [d|d]; cbn [NilZero.string_of_int occurs].
  - apply Hu.
  - rewrite Hu. destruct Hc as [-> | ->]; reflexivity.
Qed.

Lemma digits_prefix_uint (d : Decimal.uint) :
  JS.digits_prefix (NilEmpty.string_of_uint d) = d.
Proof. induction d; simpl; rewrite ?IHd; reflexivity. Qed.

Lemma skip_whitespace_keeps (a : ascii) (rest : string) :
  JS.is_space1 a = false ->
  (forall b, JS.is_space2 a b = false) ->
  (forall b c, JS.is_space3 a b c = false) ->
  JS.skip_whitespace (String a rest) = String a rest.
Proof.
  intros H1 H2 H3. cbn [JS.skip_whitespace]. rewrite H1.
  destruct rest as [|b rest2]; [reflexivity|]. rewrite H2.
  destruct rest2 as [|c rest3]; [reflexivity|]. now rewrite H3.
Qed.

Lemma parseInt_unsigned (d : Decimal.uint) :
  d <> Decimal.Nil ->
  JS.parseInt (NilEmpty.string_of_uint d) = Some (Z.of_uint d).
Proof.
  intros Hd. unfold JS.parseInt.
  destruct d; [contradiction | ..];
    cbn [NilEmpty.string_of_uint];
    (rewrite skip_whitespace_keeps by (intros; reflexivity));
    cbn [JS.digits_prefix uint_of_char]; rewrite digits_prefix_uint;
    now rewrite Z.mul_1_l.
Qed.

Lemma parseInt_negated (d : Decimal.uint) :
  d <> Decimal.Nil ->
  JS.parseInt (String "-" (NilEmpty.string_of_uint d)) = Some (- Z.of_uint d).
Proof.
  intros Hd. unfold JS.parseInt.
  rewrite skip_whitespace_keeps by (intros; reflexivity).
  rewrite digits_prefix_uint.
  destruct d; [contradiction | ..]; f_equal; lia.
Qed.

(** [parseInt(`${n}`, 10) === n] *)
Lemma parseInt_Number_toString (n : Z) :
  JS.parseInt (JS.Number_toString n) = Some n.
Proof.
  unfold JS.Number_toString.
  destruct n as [|p|p]; cbn [Z.to_int NilZero.string_of_int].
  - reflexivity.
  - pose proof (Unsigned.to_uint_nonnil p) as Hnil.
    replace (NilZero.string_of_uint (Pos.to_uint p))
      with (NilEmpty.string_of_uint (Pos.to_uint p))
      by (now destruct (Pos.to_uint p)).
    rewrite parseInt_unsigned by exact Hnil.
    unfold Z.of_uint. now rewrite Unsigned.of_to.
  - pose proof (Unsigned.to_uint_nonnil p) as Hnil.
    replace (NilZero.string_of_uint (Pos.to_uint p))
      with (NilEmpty.string_of_uint (Pos.to_uint p))
      by (now destruct (Pos.to_uint p)).
    rewrite parseInt_negated by exact Hnil.
    unfold Z.of_uint. now rewrite Unsigned.of_to.
Qed.

(** ** Round trip: claim C3 *)

Lemma registered_for_version (R : Registry) (v : Z) (scheme : SignatureScheme) :
  registered_for R v = Some scheme -> version scheme = v.
Proof.
  unfold registered_for. intros H.
  apply find_some in H as [_ H]. now apply Z.eqb_eq.
Qed.

Lemma registered_for_member (R : Registry) (scheme : SignatureScheme) :
  In scheme R -> exists found, registered_for R (version scheme) = Some found.
Proof.
  unfold registered_for. intros Hin.
  destruct (List.find _ R) as [found|] eqn:F; [now exists found|].
  apply (find_none _ _ F) in Hin. now rewrite Z.eqb_refl in Hin.
Qed.

Section Entry.

Variables (R : Registry) (sig : SignatureObject.t).

Hypothesis value_safe : occurs "=" (SignatureObject.value sig) = false.

Lemma SignatureObject_toString_split :
  JS.split "=" (SignatureObject.toString sig)
  = [String "v" (JS.Number_toString (version (SignatureObject.scheme sig)));
     SignatureObject.value sig].
Proof.
  change (SignatureObject.toString sig)
    with (String "v" (JS.Number_toString (version (SignatureObject.scheme sig)))
            ++ String "=" (SignatureObject.value sig)).
  rewrite split_append.
  - now rewrite split_without.
  - cbn [occurs]. rewrite Number_toString_has_no by now right. reflexivity.
Qed.

Lemma SignatureObject_toString_is_entry :
  is_timestamp_pair (SignatureObject.toString sig) = false.
Proof.
  unfold is_timestamp_pair. now rewrite SignatureObject_toString_split.
Qed.

Lemma SignatureObject_parse_toString (found : SignatureScheme) :
  version (SignatureObject.scheme sig) <> 0 ->
  registered_for R (version (SignatureObject.scheme sig)) = Some found ->
  result (SignatureObject.parse (SignatureObject.toString sig)) R
  = inr (reparsed R sig).
Proof.
  intros Hv Hfound.
  rewrite (SignatureObject_parse_versioned _ _ _ R SignatureObject_toString_split).
  rewrite parseInt_Number_toString.
  apply Z.eqb_neq in Hv. rewrite Hv.
  unfold reparsed. now rewrite Hfound.
Qed.

Lemma SignatureObject_toString_reparsed (found : SignatureScheme) :
  registered_for R (version (SignatureObject.scheme sig)) = Some found ->
  SignatureObject.toString (reparsed R sig) = SignatureObject.toString sig.
Proof.
  intros Hfound. unfold reparsed. rewrite Hfound.
  unfold SignatureObject.toString. cbn [SignatureObject.scheme SignatureObject.value].
  now rewrite (registered_for_version _ _ _ Hfound).
Qed.

End Entry.

Lemma wire_safe_parts (s : string) :
  wire_safe s = true -> occurs "," s = false /\ occurs "=" s = false.
Proof.
  unfold wire_safe. intros H. apply andb_true_iff in H as [H1 H2].
  split; now apply negb_true_iff.
Qed.

Lemma SignatureObject_toString_has_no_comma (R : Registry)
    (sig : SignatureObject.t) :
  parses_back R sig -> occurs "," (SignatureObject.toString sig) = false.
Proof.
  intros (Hsafe & _ & _). apply wire_safe_parts in Hsafe as [Hc _].
  unfold SignatureObject.toString.
  rewrite !occurs_append, Number_toString_has_no by now left.
  now rewrite Hc.
Qed.

(** The loop of [parse] over the texts of entries that parse back. *)
Lemma forEach_parse_pair_toString (R : Registry) (timestamp : option Z)
    (sigs acc : list SignatureObject.t) :
  (forall sig, In sig sigs -> parses_back R sig) ->
  forEach Signature.parse_pair (map SignatureObject.toString sigs)
          (timestamp, acc) R
  = (inr (timestamp, (acc ++ map (reparsed R) sigs)%list), R).
Proof.
  revert acc; induction sigs as [|sig sigs IH]; intros acc Hall.
  - simpl. now rewrite app_nil_r.
  - destruct (Hall sig (or_introl eq_refl)) as (Hsafe & Hv & found & Hfound).
    apply wire_safe_parts in Hsafe as [_ Heq].
    pose proof (parse_pair_entry timestamp acc (SignatureObject.toString sig) R
                  (SignatureObject_toString_is_entry sig Heq)) as Hstep.
    rewrite (SignatureObject_parse_toString R sig Heq found Hv Hfound) in Hstep.
    cbn [map forEach]. rewrite (bind_run _ _ _ _ _ Hstep).
    rewrite IH by (intros s Hs; apply Hall; now right).
    now rewrite <- app_assoc.
Qed.

(** The callback of [parse] on the pair [t=<timestamp>]. *)
Lemma parse_pair_timestamp (R : Registry) (ts : Z)
    (acc : list SignatureObject.t) :
  ts <> 0 ->
  Signature.parse_pair (None, acc) ("t=" ++ JS.Number_toString ts) R
  = (inr (Some ts, acc), R).
Proof.
  intros Hts. unfold Signature.parse_pair.
  change ("t=" ++ JS.Number_toString ts)
    with ("t" ++ String "=" (JS.Number_toString ts)).
  rewrite split_append by reflexivity.
  rewrite split_without by (apply Number_toString_has_no; now right).
  cbn [String.eqb Ascii.eqb Bool.eqb JS.falsy negb].
  rewrite parseInt_Number_toString. cbn [JS.falsy].
  apply Z.eqb_neq in Hts. now rewrite Hts.
Qed.

(** Parsing the text of an envelope whose entries parse back. *)
Lemma parse_toString (R : Registry) (E : Signature.t) :
  Signature.timestamp E <> 0 ->
  (forall sig, In sig (Signature.signatureObjects E) -> parses_back R sig) ->
  Signature.parse (Signature.toString E) R
  = (inr (Signature.mk (Signature.timestamp E)
            (map (reparsed R) (Signature.signatureObjects E))), R).
Proof.
  destruct E as [ts sigs]. cbn [Signature.timestamp Signature.signatureObjects].
  intros Hts Hall. unfold Signature.parse.
  rewrite Signature_toString_join.
  cbn [Signature.timestamp Signature.signatureObjects].
  rewrite split_join.
  - assert (Hloop :
      forEach Signature.parse_pair
        (("t=" ++ JS.Number_toString ts) :: map SignatureObject.toString sigs)
        (None, []) R
      = (inr (Some ts, map (reparsed R) sigs), R)).
    { cbn [forEach].
      rewrite (bind_run _ _ _ _ _ (parse_pair_timestamp R ts [] Hts)).
      now rewrite forEach_parse_pair_toString. }
    rewrite (bind_run _ _ _ _ _ Hloop).
    apply Z.eqb_neq in Hts. now rewrite Hts.
  - rewrite occurs_append, Number_toString_has_no by now left. reflexivity.
  - intros s Hs. apply in_map_iff in Hs as (sig & <- & Hin).
    apply (SignatureObject_toString_has_no_comma R). now apply Hall.
Qed.

Lemma Signature_toString_reparsed (R : Registry) (E : Signature.t) :
  (forall sig, In sig (Signature.signatureObjects E) -> parses_back R sig) ->
  Signature.toString
    (Signature.mk (Signature.timestamp E)
       (map (reparsed R) (Signature.signatureObjects E)))
  = Signature.toString E.
Proof.
  intros Hall. rewrite !Signature_toString_join.
  cbn [Signature.timestamp Signature.signatureObjects].
  f_equal. f_equal. rewrite map_map. apply map_ext_in.
  intros sig Hin. destruct (Hall sig Hin) as (_ & _ & found & Hfound).
  now apply (SignatureObject_toString_reparsed R sig found).
Qed.

(** C3, the claim as stated fails: the fake scheme of the test suite puts
    the secret into the signature, and with the secret ["a,b"] the text of
    the signed envelope does not parse. *)
Lemma separator_in_signature_breaks_round_trip :
  exists E : Signature.t,
    Signature.createSignature
      {| cs_timestamp := 946720800; cs_payload := testPayload;
         cs_secrets := ["a,b"]; cs_schemes := Some [FakeSignatureScheme] |}
      [FakeSignatureScheme] = (inr E, [FakeSignatureScheme])
    /\ Signature.toString E = "t=946720800,v1337=946720800:a,b:(32)"
    /\ result (Signature.parse (Signature.toString E)) [FakeSignatureScheme]
       = inl MalformedPair.
Proof. eexists. repeat split. Qed.

(** C3, amended.  Let [E] be the envelope [createSignature] builds from a
    positive safe-integer timestamp, a payload, a list of secrets and
    schemes that are registered, have a safe-integer version other than
    zero and sign the payload under each of the secrets to a string
    without [','] and ['='].  Then [parse(E.toString())] returns an
    envelope [E'] and [E'.equals(E)] is true. *)
Theorem parse_toString_round_trip
    (params : CreateSignatureOptions) (R : Registry) :
  0 < cs_timestamp params ->
  safe_integer (cs_timestamp params) ->
  (forall scheme, In scheme (effective_schemes params R) ->
     In scheme R
     /\ version scheme <> 0
     /\ safe_integer (version scheme)
     /\ forall secret, In secret (cs_secrets params) ->
          wire_safe (sign scheme (cs_timestamp params) (cs_payload params)
                       secret) = true) ->
  exists E E' : Signature.t,
    Signature.createSignature params R = (inr E, R)
    /\ Signature.parse (Signature.toString E) R = (inr E', R)
    /\ Signature.equals E' E R = (inr true, R).
Proof.
  intros Hpos _ Hschemes.
  pose (E := Signature.mk (cs_timestamp params)
    (flat_map
       (fun scheme =>
          map (SignatureObject.createSignatureObject scheme
                 (cs_timestamp params) (cs_payload params))
              (cs_secrets params))
       (effective_schemes params R))).
  exists E, (Signature.mk (Signature.timestamp E)
               (map (reparsed R) (Signature.signatureObjects E))).
  split; [apply createSignature_run|].
  assert (Hall : forall sig, In sig (Signature.signatureObjects E) ->
                             parses_back R sig).
  { intros sig Hin. unfold E in Hin. cbn [Signature.signatureObjects] in Hin.
    apply in_flat_map in Hin as (scheme & Hscheme & Hin).
    apply in_map_iff in Hin as (secret & <- & Hsecret).
    destruct (Hschemes scheme Hscheme) as (Hreg & Hv & _ & Hsafe).
    unfold parses_back, SignatureObject.createSignatureObject.
    cbn [SignatureObject.value SignatureObject.scheme].
    split; [now apply Hsafe|]. split; [exact Hv|].
    now apply registered_for_member. }
  split.
  - apply parse_toString; [|exact Hall].
    unfold E. cbn [Signature.timestamp]. lia.
  - rewrite Signature_equals_run, (Signature_toString_reparsed R E Hall).
    now rewrite String.eqb_refl.
Qed.

(** The envelope of the test suite, signed by the fake scheme with two
    secrets. *)
Lemma parse_toString_round_trip_witness :
  exists E E' : Signature.t,
    Signature.createSignature
      {| cs_timestamp := sampleTimestamp; cs_payload := testPayload;
         cs_secrets := [testSecret; "some-secret"];
         cs_schemes := Some [FakeSignatureScheme] |}
      [FakeSignatureScheme] = (inr E, [FakeSignatureScheme])
    /\ Signature.parse (Signature.toString E) [FakeSignatureScheme]
       = (inr E', [FakeSignatureScheme])
    /\ Signature.equals E' E [FakeSignatureScheme]
       = (inr true, [FakeSignatureScheme]).
Proof.
  apply (parse_toString_round_trip
           {| cs_timestamp := sampleTimestamp; cs_payload := testPayload;
              cs_secrets := [testSecret; "some-secret"];
              cs_schemes := Some [FakeSignatureScheme] |}
           [FakeSignatureScheme]).
  - reflexivity.
  - split; reflexivity.
  - intros scheme [<-|[]]. split; [now left|]. split; [discriminate|].
    split; [split; reflexivity|].
    intros secret [<-|[<-|[]]]; reflexivity.
Defined.

(** * Further properties of the code *)

(** ** Schemes.register and Schemes.unregister *)

Lemma registered_for_app (R : Registry) (s : SignatureScheme) (v : Z) :
  registered_for (R ++ [s])%list v
  = match registered_for R v with
    | Some found => Some found
    | None => if version s =? v then Some s else None
    end.
Proof.
  unfold registered_for. induction R as [|x R IH]; simpl.
  - reflexivity.
  - destruct (version x =? v); [reflexivity | exact IH].
Qed.

Lemma registered_for_filter (R : Registry) (v w : Z) :
  w <> v ->
  registered_for (filter (fun s => negb (version s =? v)) R) w
  = registered_for R w.
Proof.
  intros Hne. unfold registered_for.
  induction R as [|x R IH]; simpl; [reflexivity|].
  destruct (version x =? v) eqn:Ev; cbn [negb].
  - apply Z.eqb_eq in Ev.
    replace (version x =? w) with false; [exact IH|].
    symmetry. apply Z.eqb_neq. congruence.
  - simpl. destruct (version x =? w); [reflexivity | exact IH].
Qed.

Lemma registered_for_none (R : Registry) (v : Z) :
  registered_for R v = None <-> ~ In v (map version R).
Proof.
  unfold registered_for. induction R as [|x R IH]; simpl.
  - tauto.
  - destruct (Z.eqb_spec (version x) v) as [->|Hne].
    + split; [discriminate | intros H; exfalso; apply H; now left].
    + rewrite IH. tauto.
Qed.

Lemma register_run (scheme : SignatureScheme) (R : Registry) :
  Schemes.register scheme R
  = (inr tt, match registered_for R (version scheme) with
             | Some _ => R
             | None => (R ++ [scheme])%list
             end).
Proof.
  unfold Schemes.register.
  rewrite (bind_run _ _ _ _ _ (Schemes_find_run (version scheme) R)).
  now destruct (registered_for R (version scheme)).
Qed.

Lemma register_extends (scheme : SignatureScheme) (R : Registry) :
  extends R (snd (Schemes.register scheme R)).
Proof.
  intros v s Hs. rewrite register_run. cbn [snd].
  destruct (registered_for R (version scheme)); [exact Hs|].
  now rewrite registered_for_app, Hs.
Qed.

(** X1.  After [register(scheme)] the lookup of the scheme's version
    succeeds with a scheme of that version.  The first registration wins:
    when the version was already known the registry is left as it was and
    the lookup still answers the old scheme; otherwise the scheme is
    appended and is the answer.  The lookup of every other version is
    unchanged. *)
Theorem register_first_wins (scheme : SignatureScheme) (R : Registry) :
  let R' := snd (Schemes.register scheme R) in
  (forall old, registered_for R (version scheme) = Some old ->
     R' = R /\ registered_for R' (version scheme) = Some old)
  /\ (registered_for R (version scheme) = None ->
      R' = (R ++ [scheme])%list
      /\ registered_for R' (version scheme) = Some scheme)
  /\ (forall v, v <> version scheme ->
        registered_for R' v = registered_for R v).
Proof.
  intros R'. unfold R'. rewrite register_run. cbn [snd].
  split; [|split].
  - intros old Hold. rewrite Hold. now split.
  - intros Hnone. rewrite Hnone. split; [reflexivity|].
    now rewrite registered_for_app, Hnone, Z.eqb_refl.
  - intros v Hv.
    destruct (registered_for R (version scheme)); [reflexivity|].
    rewrite registered_for_app.
    destruct (registered_for R v); [reflexivity|].
    apply Z.eqb_neq in Hv. rewrite Z.eqb_sym in Hv. now rewrite Hv.
Qed.

(** Registering the echo scheme, of version 7, twice over the registry of
    the test suite. *)
Lemma register_first_wins_witness :
  snd (Schemes.register EchoScheme [FakeSignatureScheme; EchoScheme])
    = [FakeSignatureScheme; EchoScheme]
  /\ registered_for
       (snd (Schemes.register EchoScheme [FakeSignatureScheme; EchoScheme]))
       (version EchoScheme) = Some EchoScheme.
Proof.
  apply (proj1 (register_first_wins EchoScheme
                  [FakeSignatureScheme; EchoScheme]) EchoScheme).
  reflexivity.
Defined.

(** X2.  The registry the process starts with holds one scheme per
    version, and [register] and [unregister] keep it so. *)
Theorem registry_versions_stay_unique
    (scheme : SignatureScheme) (v : Z) (R : Registry) :
  (forall hmac, versions_unique (initial_schemes hmac))
  /\ (versions_unique R ->
      versions_unique (snd (Schemes.register scheme R))
      /\ versions_unique (snd (Schemes.unregister v R))).
Proof.
  unfold versions_unique. split.
  - intros hmac. simpl. constructor; [intros [] | constructor].
  - intros Huniq. split.
    + rewrite register_run. cbn [snd].
      destruct (registered_for R (version scheme)) eqn:F; [exact Huniq|].
      apply registered_for_none in F.
      rewrite map_app. cbn [map].
      clear -Huniq F. induction (map version R) as [|x l IH]; simpl.
      * constructor; [intros [] | constructor].
      * inversion Huniq as [|? ? Hx Hl]; subst. constructor.
        -- rewrite in_app_iff. intros [H|[H|[]]]; [contradiction|].
           apply F. now left.
        -- apply IH; [exact Hl|]. intros H. apply F. now right.
    + cbn. clear -Huniq. induction R as [|x R IH]; simpl; [constructor|].
      inversion Huniq as [|? ? Hx Hl]; subst.
      destruct (version x =? v); cbn [negb]; [now apply IH|].
      simpl. constructor; [|now apply IH].
      intros Hin. apply Hx. apply in_map_iff in Hin as (y & Hy & Hin).
      apply filter_In in Hin as [Hin _]. apply in_map_iff. now exists y.
Qed.

(** The registry of the test suite while the fake scheme is registered. *)
Lemma registry_versions_stay_unique_witness :
  versions_unique
    (snd (Schemes.register EchoScheme [FakeSignatureScheme]))
  /\ versions_unique (snd (Schemes.unregister 1337 [FakeSignatureScheme])).
Proof.
  apply (proj2 (registry_versions_stay_unique EchoScheme 1337
                  [FakeSignatureScheme])).
  unfold versions_unique. simpl. constructor; [intros [] | constructor].
Defined.

(** X3.  [unregister(v)] removes exactly the schemes of version [v]: the
    lookup of [v] then finds nothing, the lookup of any other version is
    unchanged, and the schemes left are those of the other versions. *)
Theorem unregister_removes_version (v : Z) (R : Registry) :
  let R' := snd (Schemes.unregister v R) in
  registered_for R' v = None
  /\ (forall w, w <> v -> registered_for R' w = registered_for R w)
  /\ (forall s, In s R' <-> In s R /\ version s <> v).
Proof.
  intros R'. split; [apply unregister_forgets|]. split.
  - intros w Hw. unfold R'. cbn. now apply registered_for_filter.
  - intros s. unfold R'. cbn. rewrite filter_In, negb_true_iff, Z.eqb_neq.
    tauto.
Qed.

(** Unregistering the fake scheme leaves the echo scheme in place. *)
Lemma unregister_removes_version_witness :
  registered_for
    (snd (Schemes.unregister 1337 [FakeSignatureScheme; EchoScheme])) 7
  = registered_for [FakeSignatureScheme; EchoScheme] 7.
Proof.
  apply (proj1 (proj2 (unregister_removes_version 1337
                         [FakeSignatureScheme; EchoScheme])) 7).
  discriminate.
Defined.

(** X4.  Registering a scheme whose version is new and then unregistering
    that version gives the registry back, as the test suite relies on. *)
Theorem register_then_unregister (scheme : SignatureScheme) (R : Registry) :
  registered_for R (version scheme) = None ->
  snd (Schemes.unregister (version scheme)
         (snd (Schemes.register scheme R))) = R.
Proof.
  intros Hnone. rewrite register_run, Hnone. cbn.
  apply registered_for_none in Hnone.
  rewrite filter_app. cbn [filter]. rewrite Z.eqb_refl. cbn [negb].
  rewrite app_nil_r.
  induction R as [|x R IH]; simpl; [reflexivity|].
  destruct (Z.eqb_spec (version x) (version scheme)) as [E|Hne]; cbn [negb].
  - exfalso. apply Hnone. left. exact E.
  - f_equal. apply IH. intros H. apply Hnone. now right.
Qed.

(** The test suite's [Schemes.register(FakeSignatureScheme)] ...
    [Schemes.unregister(FakeSignatureScheme.version())] around the echo
    scheme. *)
Lemma register_then_unregister_witness :
  snd (Schemes.unregister (version FakeSignatureScheme)
         (snd (Schemes.register FakeSignatureScheme [EchoScheme])))
  = [EchoScheme].
Proof.
  apply (register_then_unregister FakeSignatureScheme [EchoScheme]).
  reflexivity.
Defined.

(** ** The built-in scheme *)



Lemma Number_toString_inj (n m : Z) :
  JS.Number_toString n = JS.Number_toString m -> n = m.
Proof.
  intros H. pose proof (parseInt_Number_toString n) as Hn.
  rewrite H, parseInt_Number_toString in Hn. congruence.
Qed.





(** ** What a successful parse tells *)

Lemma split_parts_without (sep : ascii) (s p : string) :
  In p (JS.split sep s) -> occurs sep p = false.
Proof.
  revert p; induction s as [|c s IH]; intros p; simpl.
  - intros [<-|[]]. reflexivity.
  - destruct (Ascii.eqb c sep) eqn:Ec.
    + intros [<-|Hin]; [reflexivity | now apply IH].
    + destruct (JS.split sep s) as [|hd tl].
      * intros [<-|[]]. simpl. now rewrite Ec.
      * intros [<-|Hin].
        -- simpl. rewrite Ec. apply IH. now left.
        -- apply IH. now right.
Qed.


Lemma SignatureObject_parse_inv (text : string) (R : Registry)
    (sig : SignatureObject.t) :
  result (SignatureObject.parse text) R = inr sig ->
  exists rem,
    JS.split "=" text = [String "v" rem; SignatureObject.value sig]
    /\ JS.parseInt rem = Some (version (SignatureObject.scheme sig))
    /\ version (SignatureObject.scheme sig) <> 0
    /\ registered_for R (version (SignatureObject.scheme sig))
       = Some (SignatureObject.scheme sig).
Proof.
  unfold result, SignatureObject.parse.
  destruct (JS.split "=" text) as [|versionStr [|signature [|x l]]];
    try discriminate.
  destruct versionStr as [|a rem]; [discriminate|].
  cbn [JS.first_char_differs JS.replace_first].
  destruct (Ascii.eqb_spec a "v") as [->|Hne]; cbn [negb]; [|discriminate].
  destruct (JS.parseInt rem) as [v|] eqn:Hv; [|discriminate].
  destruct (Z.eqb_spec v 0) as [->|Hv0]; [discriminate|].
  unfold bind. rewrite Schemes_find_run.
  destruct (registered_for R v) as [found|] eqn:F; [|discriminate].
  cbn. intros [= <-]. cbn [SignatureObject.scheme SignatureObject.value].
  pose proof (registered_for_version R v found F) as Hversion.
  exists rem. rewrite Hversion. repeat split; auto.
Qed.

Lemma parse_pair_inv (ts ts' : option Z) (acc acc' : list SignatureObject.t)
    (pair : string) (R R' : Registry) :
  Signature.parse_pair (ts, acc) pair R = (inr (ts', acc'), R') ->
  R' = R
  /\ ((is_timestamp_pair pair = true /\ JS.falsy ts = true /\ acc' = acc
       /\ JS.falsy ts' = false
       /\ exists v, JS.split "=" pair = ["t"; v] /\ ts' = JS.parseInt v)
      \/ (is_timestamp_pair pair = false /\ ts' = ts
          /\ exists sig, result (SignatureObject.parse pair) R = inr sig
                         /\ acc' = (acc ++ [sig])%list)).
Proof.
  unfold Signature.parse_pair, is_timestamp_pair.
  destruct (JS.split "=" pair) as [|k [|v [|x l]]]; try discriminate.
  destruct (String.eqb_spec k "t") as [->|Hk].
  - destruct (JS.falsy ts) eqn:Fts; cbn [negb]; [|discriminate].
    destruct (JS.falsy (JS.parseInt v)) eqn:Fv; [discriminate|].
    intros [= <- <- <-]. split; [reflexivity|]. left.
    repeat split; auto. now exists v.
  - unfold bind. rewrite SignatureObject_parse_run.
    destruct (result (SignatureObject.parse pair) R) as [e|sig];
      [discriminate|].
    intros [= <- <- <-]. split; [reflexivity|]. right.
    repeat split; auto. now exists sig.
Qed.

(** The loop of [parse], read backwards from a normal end. *)
Lemma forEach_parse_pair_inv (pairs : list string) (R R' : Registry)
    (ts ts' : option Z) (acc sigs : list SignatureObject.t) :
  forEach Signature.parse_pair pairs (ts, acc) R = (inr (ts', sigs), R') ->
  R' = R
  /\ exists news,
       sigs = (acc ++ news)%list
       /\ Forall2 (fun pair sig =>
                     result (SignatureObject.parse pair) R = inr sig)
                  (filter is_entry_pair pairs) news
       /\ ((existsb is_timestamp_pair pairs = false /\ ts' = ts)
           \/ (JS.falsy ts = true /\ JS.falsy ts' = false
               /\ exists pre tpair post v,
                    pairs = (pre ++ tpair :: post)%list
                    /\ JS.split "=" tpair = ["t"; v]
                    /\ ts' = JS.parseInt v
                    /\ existsb is_timestamp_pair pre = false
                    /\ existsb is_timestamp_pair post = false)).
Proof.
  revert ts acc; induction pairs as [|p rest IH]; intros ts acc.
  - cbn. intros [= <- <- <-]. split; [reflexivity|].
    exists []. rewrite app_nil_r. repeat split; [constructor | now left].
  - cbn [forEach]. unfold bind at 1.
    destruct (Signature.parse_pair (ts, acc) p R) as [[e|[ts1 acc1]] R1] eqn:Hp;
      [discriminate|].
    apply parse_pair_inv in Hp as [-> Hp]. intros Hrest.
    apply IH in Hrest as (-> & news & -> & Hall & Hts).
    split; [reflexivity|].
    unfold is_entry_pair at 1. cbn [filter]. fold is_entry_pair.
    destruct Hp as [(Htp & Hfalsy & -> & Hts1 & v & Hsplit & ->)
                   |(Htp & -> & sig & Hsig & ->)]; rewrite Htp; cbn [negb].
    + exists news. split; [reflexivity|]. split; [exact Hall|]. right.
      destruct Hts as [[Hno ->] | (Hcontra & _)]; [|congruence].
      repeat split; auto.
      exists [], p, rest, v. repeat split; auto.
    + exists (sig :: news). rewrite <- app_assoc. split; [reflexivity|].
      split; [now constructor|].
      destruct Hts as [[Hno ->] | (Hf & Hf' & pre & tpair & post & v & -> & Hs
                                   & -> & Hpre & Hpost)].
      * left. cbn [existsb]. now rewrite Htp, Hno.
      * right. repeat split; auto.
        exists (p :: pre), tpair, post, v. cbn [existsb app].
        rewrite Htp, Hpre. repeat split; auto.
Qed.

Lemma Signature_parse_inv (value : string) (R R' : Registry) (E : Signature.t) :
  Signature.parse value R = (inr E, R') ->
  R' = R
  /\ Signature.timestamp E <> 0
  /\ Forall2 (fun pair sig => result (SignatureObject.parse pair) R = inr sig)
             (filter is_entry_pair (JS.split "," value))
             (Signature.signatureObjects E)
  /\ exists pre tpair post v,
       JS.split "," value = (pre ++ tpair :: post)%list
       /\ JS.split "=" tpair = ["t"; v]
       /\ JS.parseInt v = Some (Signature.timestamp E)
       /\ existsb is_timestamp_pair pre = false
       /\ existsb is_timestamp_pair post = false.
Proof.
  unfold Signature.parse, bind.
  destruct (forEach _ _ _ R) as [[e|[[ts|] sigs]] R1] eqn:Hloop;
    try discriminate.
  destruct (Z.eqb_spec ts 0) as [->|Hts]; [discriminate|].
  intros [= <- <-].
  apply forEach_parse_pair_inv in Hloop as (-> & news & -> & Hall & Hcase).
  cbn [Signature.timestamp Signature.signatureObjects app].
  repeat split; auto.
  destruct Hcase as [[_ H] | (_ & _ & pre & tpair & post & v & Hp & Hs & Hv
                              & Hpre & Hpost)]; [discriminate|].
  exists pre, tpair, post, v. repeat split; auto.
Qed.

Lemma Forall2_In_r {A B} (P : A -> B -> Prop) (l1 : list A) (l2 : list B)
    (y : B) :
  Forall2 P l1 l2 -> In y l2 -> exists x, In x l1 /\ P x y.
Proof.
  induction 1 as [|a b l1 l2 Hab _ IH]; [intros []|].
  intros [<-|Hin].
  - exists a. split; [now left | exact Hab].
  - destruct (IH Hin) as (x & Hx & Hp). exists x. split; [now right | exact Hp].
Qed.


(** X6.  An entry that [SignatureObject.parse] returns comes from a text
    with exactly one ['='] whose key is ['v'] followed by something
    [parseInt] reads as an integer other than zero.  Its scheme is the
    first scheme of the registry with that version, never one from
    elsewhere, and its value is the text after the ['='], kept as it
    is. *)
Theorem parsed_entry_is_registered (text : string) (R : Registry)
    (sig : SignatureObject.t) :
  result (SignatureObject.parse text) R = inr sig ->
  In (SignatureObject.scheme sig) R
  /\ registered_for R (version (SignatureObject.scheme sig))
     = Some (SignatureObject.scheme sig)
  /\ version (SignatureObject.scheme sig) <> 0
  /\ occurs "=" (SignatureObject.value sig) = false
  /\ exists rem,
       JS.split "=" text = [String "v" rem; SignatureObject.value sig]
       /\ JS.parseInt rem = Some (version (SignatureObject.scheme sig)).
Proof.
  intros Hparse.
  apply SignatureObject_parse_inv in Hparse as (rem & Hsplit & Hrem & Hv & Hreg).
  split; [|split; [exact Hreg | split; [exact Hv | split]]].
  - unfold registered_for in Hreg. now apply find_some in Hreg.
  - apply (split_parts_without "=" text). rewrite Hsplit. right. now left.
  - now exists rem.
Qed.

(** The entry text [v01337=abc]: the leading zero is read over. *)
Lemma parsed_entry_is_registered_witness :
  In FakeSignatureScheme [FakeSignatureScheme]
  /\ registered_for [FakeSignatureScheme] (version FakeSignatureScheme)
     = Some FakeSignatureScheme
  /\ version FakeSignatureScheme <> 0
  /\ occurs "=" "abc" = false
  /\ exists rem,
       JS.split "=" "v01337=abc" = [String "v" rem; "abc"]
       /\ JS.parseInt rem = Some (version FakeSignatureScheme).
Proof.
  apply (parsed_entry_is_registered "v01337=abc" [FakeSignatureScheme]
           (SignatureObject.mk FakeSignatureScheme "abc")).
  reflexivity.
Defined.

(** X7.  A header that [Signature.parse] accepts has exactly one [t=]
    pair, at any position among the pairs; the timestamp of the envelope
    is what [parseInt] reads in it and is not zero.  Every other pair is
    an entry: the entries of the envelope are the results of the entry
    parser on those pairs, in the order of the header. *)
Theorem parsed_header_anatomy (value : string) (R : Registry)
    (E : Signature.t) :
  result (Signature.parse value) R = inr E ->
  (exists pre tpair post v,
      JS.split "," value = (pre ++ tpair :: post)%list
      /\ JS.split "=" tpair = ["t"; v]
      /\ JS.parseInt v = Some (Signature.timestamp E)
      /\ existsb is_timestamp_pair pre = false
      /\ existsb is_timestamp_pair post = false)
  /\ Signature.timestamp E <> 0
  /\ Forall2 (fun pair sig => result (SignatureObject.parse pair) R = inr sig)
             (filter is_entry_pair (JS.split "," value))
             (Signature.signatureObjects E)
  /\ List.length (JS.split "," value)
     = S (List.length (Signature.signatureObjects E)).
Proof.
  unfold result. destruct (Signature.parse value R) as [r R'] eqn:Hrun.
  cbn [fst]. intros ->.
  apply Signature_parse_inv in Hrun
    as (_ & Hts & Hall & pre & tpair & post & v & Hpairs & Hsplit & Hv
        & Hpre & Hpost).
  split; [now exists pre, tpair, post, v|]. split; [exact Hts|].
  split; [exact Hall|].
  rewrite <- (Forall2_length Hall). rewrite Hpairs.
  assert (Hkeep : forall l, existsb is_timestamp_pair l = false ->
                            filter is_entry_pair l = l).
  { induction l as [|x l IH]; [reflexivity|]. cbn [existsb filter].
    intros H. apply orb_false_iff in H as [Hx Hl].
    unfold is_entry_pair at 1. rewrite Hx. cbn [negb]. now rewrite IH. }
  assert (Htp : is_entry_pair tpair = false).
  { unfold is_entry_pair, is_timestamp_pair. now rewrite Hsplit. }
  rewrite filter_app. cbn [filter]. rewrite Htp.
  rewrite !Hkeep by assumption.
  rewrite !length_app. cbn [List.length]. lia.
Qed.

(** A header with the timestamp between two entries. *)
Lemma parsed_header_anatomy_witness :
  Signature.timestamp
    (Signature.mk 5 [SignatureObject.mk FakeSignatureScheme "a";
                     SignatureObject.mk FakeSignatureScheme "b"]) <> 0.
Proof.
  apply (proj1 (proj2 (parsed_header_anatomy "v1337=a,t=5,v1337=b"
                         [FakeSignatureScheme]
                         (Signature.mk 5
                            [SignatureObject.mk FakeSignatureScheme "a";
                             SignatureObject.mk FakeSignatureScheme "b"])
                         eq_refl))).
Defined.



(** ** What equals compares *)

Lemma SignatureObject_toString_no_comma (sig : SignatureObject.t) :
  occurs "," (SignatureObject.value sig) = false ->
  occurs "," (SignatureObject.toString sig) = false.
Proof.
  intros Hc. unfold SignatureObject.toString.
  rewrite !occurs_append, Number_toString_has_no by now left.
  now rewrite Hc.
Qed.

Lemma SignatureObject_toString_inj (a b : SignatureObject.t) :
  occurs "=" (SignatureObject.value a) = false ->
  occurs "=" (SignatureObject.value b) = false ->
  SignatureObject.toString a = SignatureObject.toString b ->
  wire_identity a = wire_identity b.
Proof.
  intros Ha Hb E.
  pose proof (SignatureObject_toString_split a Ha) as Sa.
  rewrite E, (SignatureObject_toString_split b Hb) in Sa.
  injection Sa as Hv Hval. unfold wire_identity.
  now rewrite (Number_toString_inj _ _ Hv), Hval.
Qed.

Lemma SignatureObject_toString_identity (a b : SignatureObject.t) :
  wire_identity a = wire_identity b ->
  SignatureObject.toString a = SignatureObject.toString b.
Proof.
  unfold wire_identity, SignatureObject.toString. now intros [= -> ->].
Qed.

Lemma map_toString_identity (l1 l2 : list SignatureObject.t) :
  (forall sig, In sig l1 \/ In sig l2 ->
     occurs "=" (SignatureObject.value sig) = false) ->
  map SignatureObject.toString l1 = map SignatureObject.toString l2 ->
  map wire_identity l1 = map wire_identity l2.
Proof.
  revert l2; induction l1 as [|a l1 IH]; intros [|b l2] Hsafe E;
    try discriminate; [reflexivity|].
  cbn [map] in *.
  pose proof (f_equal (hd "") E) as Eab. pose proof (f_equal (@tl _) E) as Et.
  cbn [hd tl] in Eab, Et. clear E. rename Et into E.
  assert (Ha : occurs "=" (SignatureObject.value a) = false)
    by (apply Hsafe; left; now left).
  assert (Hb : occurs "=" (SignatureObject.value b) = false)
    by (apply Hsafe; right; now left).
  rewrite (SignatureObject_toString_inj a b Ha Hb Eab).
  f_equal. apply IH; [|exact E].
  intros sig [H|H]; apply Hsafe; [left | right]; now right.
Qed.

(** X9.  [SignatureObject.equals] compares the values alone: entries of
    different schemes with the same value are equal.  [Signature.equals]
    compares the wire texts: for envelopes whose values hold no [','] and
    no ['='] it is true exactly when the timestamps are the same and the
    entries have, position by position, the same version and the same
    value. *)
Theorem equals_compares_wire_text
    (a b : SignatureObject.t) (E F : Signature.t) (R : Registry) :
  (result (SignatureObject.equals a b) R = inr true
   <-> SignatureObject.value a = SignatureObject.value b)
  /\ ((forall sig,
         In sig (Signature.signatureObjects E)
         \/ In sig (Signature.signatureObjects F) ->
         wire_safe (SignatureObject.value sig) = true) ->
      (result (Signature.equals E F) R = inr true
       <-> Signature.timestamp E = Signature.timestamp F
           /\ map wire_identity (Signature.signatureObjects E)
              = map wire_identity (Signature.signatureObjects F))).
Proof.
  unfold result. rewrite SignatureObject_equals_run, Signature_equals_run.
  cbn [fst]. split.
  - split; [intros [= H]; now apply String.eqb_eq|].
    intros H. f_equal. now apply String.eqb_eq.
  - intros Hsafe.
    assert (Hparts : forall sig,
      In sig (Signature.signatureObjects E)
      \/ In sig (Signature.signatureObjects F) ->
      occurs "," (SignatureObject.value sig) = false
      /\ occurs "=" (SignatureObject.value sig) = false).
    { intros sig Hin. now apply wire_safe_parts, Hsafe. }
    assert (Hhead : forall n, occurs "," ("t=" ++ JS.Number_toString n) = false).
    { intros n. rewrite occurs_append, Number_toString_has_no by now left.
      reflexivity. }
    split.
    + intros [= Heq]. apply String.eqb_eq in Heq.
      apply (f_equal (JS.split ",")) in Heq.
      rewrite !Signature_toString_join in Heq.
      rewrite !split_join in Heq; try apply Hhead.
      * pose proof (f_equal (hd "") Heq) as Hts.
        pose proof (f_equal (@tl _) Heq) as Hsigs.
        cbn [hd tl] in Hts, Hsigs. split.
        -- apply Number_toString_inj. now injection Hts.
        -- apply map_toString_identity; [|exact Hsigs].
           intros sig Hin. now apply Hparts.
      * intros s Hs. apply in_map_iff in Hs as (sig & <- & Hin).
        apply SignatureObject_toString_no_comma. apply Hparts. now right.
      * intros s Hs. apply in_map_iff in Hs as (sig & <- & Hin).
        apply SignatureObject_toString_no_comma. apply Hparts. now left.
    + intros [Hts Hid]. f_equal. apply String.eqb_eq.
      rewrite !Signature_toString_join, Hts. f_equal. f_equal.
      clear -Hid. revert Hid.
      generalize (Signature.signatureObjects E), (Signature.signatureObjects F).
      induction l as [|x l IH]; intros [|y l']; try discriminate;
        [reflexivity|].
      cbn [map]. intros [= Hx1 Hx2 Hl]. f_equal.
      * apply SignatureObject_toString_identity. unfold wire_identity.
        now rewrite Hx1, Hx2.
      * now apply IH.
Qed.

(** The envelope of the test suite and the same values under a scheme of
    the same version that signs differently. *)
Lemma equals_compares_wire_text_witness :
  result (Signature.equals sampleSignature
            (Signature.mk sampleTimestamp
               [ SignatureObject.mk
                   {| sign := fun _ _ _ => ""; version := 1337 |}
                   "946720800:du-TY1GUFGk:(32)";
                 SignatureObject.mk
                   {| sign := fun _ _ _ => ""; version := 1337 |}
                   "946720800:some-secret:(32)" ]))
         [FakeSignatureScheme] = inr true.
Proof.
  apply (proj2 (equals_compares_wire_text
                  (SignatureObject.mk FakeSignatureScheme "a")
                  (SignatureObject.mk FakeSignatureScheme "a")
                  sampleSignature
                  (Signature.mk sampleTimestamp
                     [ SignatureObject.mk
                         {| sign := fun _ _ _ => ""; version := 1337 |}
                         "946720800:du-TY1GUFGk:(32)";
                       SignatureObject.mk
                         {| sign := fun _ _ _ => ""; version := 1337 |}
                         "946720800:some-secret:(32)" ])
                  [FakeSignatureScheme])).
  - intros sig [[<-|[<-|[]]] | [<-|[<-|[]]]]; reflexivity.
  - split; reflexivity.
Defined.

(** ** Signing, then verifying *)

Lemma registered_for_unique (R : Registry) (s : SignatureScheme) :
  versions_unique R -> In s R -> registered_for R (version s) = Some s.
Proof.
  unfold versions_unique, registered_for.
  induction R as [|x R IH]; [intros _ []|].
  cbn [map List.find]. intros Huniq Hin.
  inversion Huniq as [|? ? Hx Hl]; subst.
  destruct Hin as [->|Hin]; [now rewrite Z.eqb_refl|].
  destruct (Z.eqb_spec (version x) (version s)) as [E|_]; [|now apply IH].
  exfalso. apply Hx. rewrite E. now apply in_map.
Qed.

(** The entry signed by a trusted scheme with [secret] is accepted when the
    payload and the timestamp are those of the signing. *)
Lemma created_entry_accepted (untrusted schemes : list SignatureScheme)
    (secrets : list string) (timestamp : Z) (payload : JS.Buffer)
    (scheme : SignatureScheme) (secret : string) :
  In scheme schemes -> In secret secrets ->
  scheme_untrusted untrusted scheme = false ->
  existsb (accepts untrusted payload secret timestamp)
    (flat_map (fun scheme =>
                 map (SignatureObject.createSignatureObject scheme timestamp
                        payload) secrets) schemes) = true.
Proof.
  intros Hscheme Hsecret Htrust. apply existsb_exists.
  exists (SignatureObject.createSignatureObject scheme timestamp payload secret).
  split.
  - apply in_flat_map. exists scheme. split; [exact Hscheme|].
    now apply in_map.
  - unfold accepts, recomputes, is_untrusted,
      SignatureObject.createSignatureObject.
    cbn [SignatureObject.scheme SignatureObject.value].
    unfold scheme_untrusted in Htrust. now rewrite Htrust, String.eqb_refl.
Qed.

Lemma flat_map_uniform_nil {A B C} (f : A -> C -> B) (cs : list C)
    (l : list A) :
  flat_map (fun a => map (f a) cs) l = [] <-> cs = [] \/ l = [].
Proof.
  destruct cs as [|c cs].
  - split; [now left|]. intros _. induction l as [|a l IH]; simpl; auto.
  - destruct l as [|a l]; simpl.
    + split; [now right | reflexivity].
    + split; [discriminate | intros [H|H]; discriminate].
Qed.

(** X10.  Signing and verifying agree: the envelope [createSignature]
    builds is verified against the payload it signed with any one of the
    secrets it signed with, provided one of the schemes used is not among
    the untrusted ones and the tolerance check lets the timestamp
    through. *)
Theorem sign_then_verify
    (params : CreateSignatureOptions) (R : Registry)
    (scheme : SignatureScheme) (secret : string)
    (Date_now : Z) (opts : option VerifySignatureOptions) :
  In scheme (effective_schemes params R) ->
  In secret (cs_secrets params) ->
  scheme_untrusted (Signature.untrustedSchemes_of opts) scheme = false ->
  Signature.ignoreTolerance_of opts = true
  \/ Signature.now_of opts Date_now - cs_timestamp params
     <= Signature.tolerance_of opts * 1000 ->
  exists E,
    Signature.createSignature params R = (inr E, R)
    /\ result (Signature.verify E Date_now (cs_payload params) secret opts) R
       = inr tt.
Proof.
  intros Hscheme Hsecret Htrust Htol.
  eexists. split; [apply createSignature_run|].
  rewrite verify_after_tolerance_nonempty.
  - cbn [Signature.signatureObjects Signature.timestamp].
    now rewrite (created_entry_accepted _ _ _ _ _ scheme secret).
  - unfold tolerance_passes. cbn [Signature.timestamp].
    apply orb_true_iff. destruct Htol as [H|H]; [now left|].
    right. now apply Z.leb_le.
  - cbn [Signature.signatureObjects]. intros Hnil.
    apply flat_map_uniform_nil in Hnil as [H|H];
      [rewrite H in Hsecret | rewrite H in Hscheme]; contradiction.
Qed.

(** The test suite's happy path: signed with two secrets, verified with
    the first one 300 ms after the timestamp. *)
Lemma sign_then_verify_witness :
  exists E,
    Signature.createSignature
      {| cs_timestamp := sampleTimestamp; cs_payload := testPayload;
         cs_secrets := [testSecret; "some-secret"]; cs_schemes := None |}
      [FakeSignatureScheme] = (inr E, [FakeSignatureScheme])
    /\ result (Signature.verify E 0 testPayload testSecret
                 (Some nowWithinTolerance)) [FakeSignatureScheme] = inr tt.
Proof.
  apply (sign_then_verify
           {| cs_timestamp := sampleTimestamp; cs_payload := testPayload;
              cs_secrets := [testSecret; "some-secret"]; cs_schemes := None |}
           [FakeSignatureScheme] FakeSignatureScheme testSecret 0
           (Some nowWithinTolerance)).
  - now left.
  - now left.
  - reflexivity.
  - right. discriminate.
Defined.

(** X11.  The whole exchange: a sender signs with schemes of a registry
    that holds one scheme per version and writes the header; a receiver
    with the same registry parses the header and gets the very envelope
    the sender built, and verifying it against the payload with any one of
    the sender's secrets succeeds.  The conditions are those of the round
    trip (positive timestamp, schemes registered with a version other than
    zero, signatures without [','] and ['=']), a scheme that is not
    untrusted and a timestamp within the tolerance. *)
Theorem sign_parse_verify
    (params : CreateSignatureOptions) (R : Registry)
    (scheme : SignatureScheme) (secret : string)
    (Date_now : Z) (opts : option VerifySignatureOptions) :
  0 < cs_timestamp params ->
  safe_integer (cs_timestamp params) ->
  versions_unique R ->
  (forall s, In s (effective_schemes params R) ->
     In s R
     /\ version s <> 0
     /\ safe_integer (version s)
     /\ forall secret, In secret (cs_secrets params) ->
          wire_safe (sign s (cs_timestamp params) (cs_payload params) secret)
          = true) ->
  In scheme (effective_schemes params R) ->
  In secret (cs_secrets params) ->
  scheme_untrusted (Signature.untrustedSchemes_of opts) scheme = false ->
  Signature.ignoreTolerance_of opts = true
  \/ Signature.now_of opts Date_now - cs_timestamp params
     <= Signature.tolerance_of opts * 1000 ->
  exists E,
    Signature.createSignature params R = (inr E, R)
    /\ Signature.parse (Signature.toString E) R = (inr E, R)
    /\ result (Signature.verify E Date_now (cs_payload params) secret opts) R
       = inr tt.
Proof.
  intros Hpos _ Huniq Hschemes Hscheme Hsecret Htrust Htol.
  pose (E := Signature.mk (cs_timestamp params)
    (flat_map
       (fun scheme =>
          map (SignatureObject.createSignatureObject scheme
                 (cs_timestamp params) (cs_payload params))
              (cs_secrets params))
       (effective_schemes params R))).
  assert (Hall : forall sig, In sig (Signature.signatureObjects E) ->
                             parses_back R sig /\ reparsed R sig = sig).
  { intros sig Hin. unfold E in Hin. cbn [Signature.signatureObjects] in Hin.
    apply in_flat_map in Hin as (s & Hs & Hin).
    apply in_map_iff in Hin as (sec & <- & Hsec).
    destruct (Hschemes s Hs) as (Hreg & Hv & _ & Hsafe).
    pose proof (registered_for_unique R s Huniq Hreg) as Hfound.
    unfold parses_back, reparsed, SignatureObject.createSignatureObject.
    cbn [SignatureObject.value SignatureObject.scheme]. rewrite Hfound.
    split; [|reflexivity].
    split; [now apply Hsafe|]. split; [exact Hv | now exists s]. }
  exists E. split; [apply createSignature_run|]. split.
  - rewrite parse_toString.
    + replace (map (reparsed R) (Signature.signatureObjects E))
        with (Signature.signatureObjects E); [reflexivity|].
      rewrite <- (map_id (Signature.signatureObjects E)) at 1.
      apply map_ext_in. intros s Hs. symmetry. now apply Hall.
    + unfold E. cbn [Signature.timestamp]. lia.
    + intros s Hs. now apply Hall.
  - rewrite verify_after_tolerance_nonempty.
    + unfold E. cbn [Signature.signatureObjects Signature.timestamp].
      now rewrite (created_entry_accepted _ _ _ _ _ scheme secret).
    + unfold tolerance_passes, E. cbn [Signature.timestamp].
      apply orb_true_iff. destruct Htol as [H|H]; [now left|].
      right. now apply Z.leb_le.
    + unfold E. cbn [Signature.signatureObjects]. intros Hnil.
      apply flat_map_uniform_nil in Hnil as [H|H];
        [rewrite H in Hsecret | rewrite H in Hscheme]; contradiction.
Qed.

(** The exchange of the test suite, with the fake scheme registered on
    both sides and the second secret on the receiving side. *)
Lemma sign_parse_verify_witness :
  exists E,
    Signature.createSignature
      {| cs_timestamp := sampleTimestamp; cs_payload := testPayload;
         cs_secrets := [testSecret; "some-secret"]; cs_schemes := None |}
      [FakeSignatureScheme] = (inr E, [FakeSignatureScheme])
    /\ Signature.parse (Signature.toString E) [FakeSignatureScheme]
       = (inr E, [FakeSignatureScheme])
    /\ result (Signature.verify E 0 testPayload "some-secret"
                 (Some nowWithinTolerance)) [FakeSignatureScheme] = inr tt.
Proof.
  apply (sign_parse_verify
           {| cs_timestamp := sampleTimestamp; cs_payload := testPayload;
              cs_secrets := [testSecret; "some-secret"]; cs_schemes := None |}
           [FakeSignatureScheme] FakeSignatureScheme "some-secret" 0
           (Some nowWithinTolerance)).
  - reflexivity.
  - split; reflexivity.
  - unfold versions_unique. simpl. constructor; [intros [] | constructor].
  - intros s [<-|[]]. split; [now left|]. split; [discriminate|].
    split; [split; reflexivity|].
    intros sec [<-|[<-|[]]]; reflexivity.
  - now left.
  - right. now left.
  - reflexivity.
  - right. discriminate.
Defined.

(** X12.  [createSignature] never fails; what it returns has no entry
    exactly when there is no secret or no scheme to sign with, and such an
    envelope is refused later, by [verify], with 'payload not signed' once
    the tolerance check has passed. *)
Theorem nothing_to_sign_is_unsigned
    (params : CreateSignatureOptions) (R : Registry) (Date_now : Z)
    (payload : JS.Buffer) (secret : string)
    (opts : option VerifySignatureOptions) :
  exists E,
    Signature.createSignature params R = (inr E, R)
    /\ (Signature.signatureObjects E = []
        <-> cs_secrets params = [] \/ effective_schemes params R = [])
    /\ (Signature.signatureObjects E = [] ->
        tolerance_passes E Date_now opts = true ->
        result (Signature.verify E Date_now payload secret opts) R
        = inl Unsigned).
Proof.
  eexists. split; [apply createSignature_run|].
  cbn [Signature.signatureObjects]. split.
  - apply flat_map_uniform_nil.
  - intros Hnil Htol. rewrite verify_after_tolerance by exact Htol.
    cbn [Signature.signatureObjects]. now rewrite Hnil.
Qed.

(** Signing with no secret at all. *)
Lemma nothing_to_sign_is_unsigned_witness :
  exists E,
    Signature.createSignature
      {| cs_timestamp := sampleTimestamp; cs_payload := testPayload;
         cs_secrets := []; cs_schemes := None |}
      [FakeSignatureScheme] = (inr E, [FakeSignatureScheme])
    /\ result (Signature.verify E 0 testPayload testSecret
                 (Some nowWithinTolerance)) [FakeSignatureScheme]
       = inl Unsigned.
Proof.
  destruct (nothing_to_sign_is_unsigned
              {| cs_timestamp := sampleTimestamp; cs_payload := testPayload;
                 cs_secrets := []; cs_schemes := None |}
              [FakeSignatureScheme] 0 testPayload testSecret
              (Some nowWithinTolerance))
    as (E & Hrun & Hiff & Hverify).
  exists E. split; [exact Hrun|].
  apply Hverify.
  - apply Hiff. now left.
  - injection Hrun as <-. reflexivity.
Defined.

(** ** What decides a verification *)

Lemma existsb_Permutation {A} (f : A -> bool) (l l' : list A) :
  Permutation l l' -> existsb f l = existsb f l'.
Proof.
  induction 1 as [|x l l' _ IH|x y l|l l' l'' _ IH1 _ IH2]; simpl.
  - reflexivity.
  - now rewrite IH.
  - now rewrite !orb_assoc, (orb_comm (f y)).
  - now rewrite IH1.
Qed.

Lemma is_untrusted_spec (untrusted : list SignatureScheme)
    (sig : SignatureObject.t) :
  is_untrusted untrusted sig = true
  <-> exists s, In s untrusted
                /\ version s = version (SignatureObject.scheme sig).
Proof.
  unfold is_untrusted. rewrite existsb_exists.
  split; intros (s & Hin & Hv); exists s; split; auto; now apply Z.eqb_eq.
Qed.

(** X13.  The answer of [verify] does not depend on the order of the
    entries: two envelopes with the same timestamp whose entry lists are
    permutations of each other are verified alike. *)
Theorem verify_ignores_entry_order
    (timestamp : Z) (sigs sigs' : list SignatureObject.t) (Date_now : Z)
    (payload : JS.Buffer) (secret : string)
    (opts : option VerifySignatureOptions) (R : Registry) :
  Permutation sigs sigs' ->
  result (Signature.verify (Signature.mk timestamp sigs) Date_now payload
            secret opts) R
  = result (Signature.verify (Signature.mk timestamp sigs') Date_now payload
              secret opts) R.
Proof.
  intros Hperm. unfold result. rewrite !verify_run. cbn [fst].
  change (tolerance_passes (Signature.mk timestamp sigs') Date_now opts)
    with (tolerance_passes (Signature.mk timestamp sigs) Date_now opts).
  destruct (tolerance_passes _ _ _); cbn [negb]; [|reflexivity].
  cbn [Signature.signatureObjects Signature.timestamp].
  destruct sigs as [|a l].
  - apply Permutation_nil in Hperm. now subst.
  - destruct sigs' as [|b l'].
    + apply Permutation_sym, Permutation_nil in Hperm. discriminate.
    + now rewrite (existsb_Permutation _ _ _ Hperm).
Qed.

(** The envelope of the test suite with its two entries swapped. *)
Lemma verify_ignores_entry_order_witness :
  result (Signature.verify sampleSignature 0 testPayload testSecret
            (Some nowWithinTolerance)) [FakeSignatureScheme]
  = result (Signature.verify
              (Signature.mk sampleTimestamp
                 [ SignatureObject.mk FakeSignatureScheme
                     "946720800:some-secret:(32)";
                   SignatureObject.mk FakeSignatureScheme
                     "946720800:du-TY1GUFGk:(32)" ])
              0 testPayload testSecret (Some nowWithinTolerance))
           [FakeSignatureScheme].
Proof.
  apply (verify_ignores_entry_order sampleTimestamp
           [ SignatureObject.mk FakeSignatureScheme "946720800:du-TY1GUFGk:(32)";
             SignatureObject.mk FakeSignatureScheme "946720800:some-secret:(32)" ]).
  apply perm_swap.
Defined.

(** X14.  [verify] returns normally only for an authenticated payload: it
    succeeds exactly when the tolerance check passes and some entry whose
    scheme version is not untrusted stores the signature its own scheme
    computes for the payload, the secret and the timestamp of the
    envelope. *)
Theorem verify_succeeds_iff
    (self : Signature.t) (Date_now : Z) (payload : JS.Buffer)
    (secret : string) (opts : option VerifySignatureOptions) (R : Registry) :
  result (Signature.verify self Date_now payload secret opts) R = inr tt
  <-> tolerance_passes self Date_now opts = true
      /\ exists sig,
           In sig (Signature.signatureObjects self)
           /\ is_untrusted (Signature.untrustedSchemes_of opts) sig = false
           /\ SignatureObject.value sig
              = sign (SignatureObject.scheme sig) (Signature.timestamp self)
                  payload secret.
Proof.
  unfold result. rewrite verify_run. cbn [fst].
  assert (Hacc : forall sigs,
    existsb (accepts (Signature.untrustedSchemes_of opts) payload secret
               (Signature.timestamp self)) sigs = true
    <-> exists sig,
          In sig sigs
          /\ is_untrusted (Signature.untrustedSchemes_of opts) sig = false
          /\ SignatureObject.value sig
             = sign (SignatureObject.scheme sig) (Signature.timestamp self)
                 payload secret).
  { intros sigs. rewrite existsb_exists. unfold accepts, recomputes.
    split; intros (sig & Hin & H); exists sig; (split; [exact Hin|]).
    - apply andb_true_iff in H as [Ht Hr].
      split; [now apply negb_true_iff | now apply String.eqb_eq].
    - destruct H as [Ht Hr]. rewrite Ht. now apply String.eqb_eq. }
  destruct (tolerance_passes self Date_now opts); cbn [negb].
  - destruct (Signature.signatureObjects self) as [|a l] eqn:Es.
    + split; [discriminate | intros (_ & sig & [] & _)].
    + rewrite <- Hacc. destruct (existsb _ _).
      * split; auto.
      * split; [discriminate | intros [_ H]; discriminate].
  - split; [discriminate | intros [H _]; discriminate].
Qed.

(** The envelope of the test suite, verified with its first secret. *)
Lemma verify_succeeds_iff_witness :
  tolerance_passes sampleSignature 0 (Some nowWithinTolerance) = true
  /\ exists sig,
       In sig (Signature.signatureObjects sampleSignature)
       /\ is_untrusted [] sig = false
       /\ SignatureObject.value sig
          = sign (SignatureObject.scheme sig) sampleTimestamp testPayload
              testSecret.
Proof.
  apply (proj1 (verify_succeeds_iff sampleSignature 0 testPayload testSecret
                  (Some nowWithinTolerance) [FakeSignatureScheme])).
  reflexivity.
Defined.

(** X15.  Loosening the options never turns an acceptance into a refusal:
    when [verify] succeeds it also succeeds with an earlier clock, a larger
    tolerance, the tolerance check switched off, or fewer untrusted
    versions. *)
Theorem verify_monotone
    (self : Signature.t) (payload : JS.Buffer) (secret : string) (R : Registry)
    (Date_now Date_now' : Z) (opts opts' : option VerifySignatureOptions) :
  result (Signature.verify self Date_now payload secret opts) R = inr tt ->
  Signature.now_of opts' Date_now' <= Signature.now_of opts Date_now ->
  Signature.tolerance_of opts <= Signature.tolerance_of opts' ->
  (Signature.ignoreTolerance_of opts = true ->
   Signature.ignoreTolerance_of opts' = true) ->
  (forall s', In s' (Signature.untrustedSchemes_of opts') ->
     exists s, In s (Signature.untrustedSchemes_of opts)
               /\ version s = version s') ->
  result (Signature.verify self Date_now' payload secret opts') R = inr tt.
Proof.
  intros Hok Hnow Htol Hign Hsub.
  assert (Hrun := verify_run self Date_now payload secret opts R).
  unfold result in Hok. rewrite Hrun in Hok. cbn [fst] in Hok.
  destruct (tolerance_passes self Date_now opts) eqn:Hpass;
    cbn [negb] in Hok; [|discriminate].
  destruct (Signature.signatureObjects self) as [|a l] eqn:Es; [discriminate|].
  destruct (existsb _ (a :: l)) eqn:Hex; [|discriminate].
  rewrite <- Es in Hex.
  rewrite verify_after_tolerance_nonempty.
  - replace (existsb _ _) with true; [reflexivity|]. symmetry.
    apply existsb_exists in Hex as (sig & Hin & Hacc).
    apply existsb_exists. exists sig. split; [exact Hin|].
    unfold accepts in *. apply andb_true_iff in Hacc as [Ht Hr].
    rewrite Hr, andb_true_r. apply negb_true_iff in Ht.
    apply negb_true_iff, not_true_is_false. intros Hu.
    apply is_untrusted_spec in Hu as (s' & Hs' & Hv).
    destruct (Hsub s' Hs') as (s & Hs & Hvs).
    assert (Hold : is_untrusted (Signature.untrustedSchemes_of opts) sig = true).
    { apply is_untrusted_spec. exists s. split; [exact Hs | congruence]. }
    congruence.
  - unfold tolerance_passes in *.
    apply orb_true_iff in Hpass as [H|H]; apply orb_true_iff.
    + left. now apply Hign.
    + right. apply Z.leb_le in H. apply Z.leb_le. nia.
  - now rewrite Es.
Qed.

(** The happy path of the test suite, then with the clock at the
    timestamp, a tolerance of ten minutes and the same trust. *)
Lemma verify_monotone_witness :
  result (Signature.verify sampleSignature sampleTimestamp testPayload
            testSecret
            (Some {| tolerance := Some 600; ignoreTolerance := None;
                     now := None; untrustedSchemes := None |}))
         [FakeSignatureScheme] = inr tt.
Proof.
  apply (verify_monotone sampleSignature testPayload testSecret
           [FakeSignatureScheme] 0 sampleTimestamp (Some nowWithinTolerance)
           (Some {| tolerance := Some 600; ignoreTolerance := None;
                    now := None; untrustedSchemes := None |})).
  - reflexivity.
  - discriminate.
  - discriminate.
  - discriminate.
  - intros s' [].
Defined.

(** ** Parsing and the registry *)

Lemma parse_pair_frame (st : option Z * list SignatureObject.t)
    (pair : string) (R : Registry) :
  snd (Signature.parse_pair st pair R) = R.
Proof.
  destruct st as [ts acc]. unfold Signature.parse_pair.
  destruct (JS.split "=" pair) as [|k [|v [|x l]]]; try reflexivity.
  destruct (String.eqb k "t").
  - destruct (negb (JS.falsy ts)); [reflexivity|].
    destruct (JS.falsy (JS.parseInt v)); reflexivity.
  - unfold bind. rewrite SignatureObject_parse_run.
    destruct (result (SignatureObject.parse pair) R); reflexivity.
Qed.

Lemma forEach_parse_pair_frame (pairs : list string)
    (st : option Z * list SignatureObject.t) (R : Registry) :
  snd (forEach Signature.parse_pair pairs st R) = R.
Proof.
  revert st; induction pairs as [|p rest IH]; intros st; [reflexivity|].
  cbn [forEach]. unfold bind.
  pose proof (parse_pair_frame st p R) as Hp.
  destruct (Signature.parse_pair st p R) as [[e|st1] R1]; cbn [snd] in Hp;
    subst R1; [reflexivity | apply IH].
Qed.

Lemma Signature_parse_frame (value : string) (R : Registry) :
  snd (Signature.parse value R) = R.
Proof.
  unfold Signature.parse, bind.
  pose proof (forEach_parse_pair_frame (JS.split "," value) (None, []) R) as Hl.
  destruct (forEach _ _ _ R) as [[e|[[ts|] sigs]] R1]; cbn [snd] in Hl;
    subst R1; try reflexivity.
  destruct (ts =? 0); reflexivity.
Qed.

Lemma SignatureObject_parse_extends (R R' : Registry) (text : string)
    (sig : SignatureObject.t) :
  extends R R' ->
  result (SignatureObject.parse text) R = inr sig ->
  result (SignatureObject.parse text) R' = inr sig.
Proof.
  intros Hext. unfold result, SignatureObject.parse.
  destruct (JS.split "=" text) as [|versionStr [|signature [|x l]]];
    try discriminate.
  destruct (JS.first_char_differs versionStr "v"); [discriminate|].
  destruct (JS.parseInt _) as [v|]; [|discriminate].
  destruct (v =? 0); [discriminate|].
  unfold bind. rewrite !Schemes_find_run.
  destruct (registered_for R v) as [found|] eqn:F; [|discriminate].
  now rewrite (Hext v found F).
Qed.

Lemma forEach_parse_pair_extends (R R' : Registry) (pairs : list string)
    (st st' : option Z * list SignatureObject.t) :
  extends R R' ->
  result (forEach Signature.parse_pair pairs st) R = inr st' ->
  result (forEach Signature.parse_pair pairs st) R' = inr st'.
Proof.
  intros Hext. revert st; induction pairs as [|p rest IH]; intros st.
  - exact (fun H => H).
  - unfold result in *. cbn [forEach]. unfold bind.
    pose proof (parse_pair_frame st p R) as Hf.
    pose proof (parse_pair_frame st p R') as Hf'.
    destruct (Signature.parse_pair st p R) as [[e|st1] R1] eqn:Hp;
      [discriminate|].
    cbn [snd] in Hf. subst R1. intros Hrest.
    assert (Hp' : Signature.parse_pair st p R' = (inr st1, R')).
    { destruct st as [ts acc]. destruct st1 as [ts1 acc1].
      pose proof Hp as Hinv. apply parse_pair_inv in Hinv as [_ Hcase].
      destruct Hcase as [(Htp & Hfalsy & -> & Hts1 & v & Hsplit & ->)
                        |(Htp & -> & sig & Hsig & ->)].
      - unfold Signature.parse_pair in *. rewrite Hsplit in *.
        cbn [String.eqb Ascii.eqb Bool.eqb] in *. rewrite Hfalsy in *.
        cbn [negb] in *. now rewrite Hts1 in *.
      - pose proof (parse_pair_entry ts acc p R' Htp) as Hstep.
        now rewrite (SignatureObject_parse_extends R R' p sig Hext Hsig)
          in Hstep. }
    rewrite Hp'. now apply IH.
Qed.

(** X16.  Only [register] and [unregister] write the registry: signing,
    parsing an entry or a header (also when the parse throws), comparing
    and looking a version up leave it as it was. *)
Theorem registry_only_written_by_register
    (params : CreateSignatureOptions) (value text : string)
    (a b : SignatureObject.t) (E F : Signature.t) (v : Z)
    (payload : JS.Buffer) (secret : string) (timestamp : Z) (R : Registry) :
  snd (Signature.createSignature params R) = R
  /\ snd (Signature.parse value R) = R
  /\ snd (SignatureObject.parse text R) = R
  /\ snd (Signature.equals E F R) = R
  /\ snd (SignatureObject.equals a b R) = R
  /\ snd (SignatureObject.verify a payload secret timestamp R) = R
  /\ snd (Schemes.find v R) = R.
Proof.
  rewrite createSignature_run, Signature_parse_frame,
    SignatureObject_parse_run, Signature_equals_run,
    SignatureObject_equals_run, SignatureObject_verify_run.
  repeat split.
Qed.

(** X17.  Registering a scheme never breaks a header that parsed before:
    the header parses to the same envelope under the larger registry. *)
Theorem parse_survives_register
    (value : string) (R : Registry) (E : Signature.t)
    (scheme : SignatureScheme) :
  result (Signature.parse value) R = inr E ->
  Signature.parse value (snd (Schemes.register scheme R))
  = (inr E, snd (Schemes.register scheme R)).
Proof.
  intros Hparse.
  set (R' := snd (Schemes.register scheme R)).
  rewrite (surjective_pairing (Signature.parse value R')).
  rewrite Signature_parse_frame. f_equal.
  pose proof (register_extends scheme R) as Hext. fold R' in Hext.
  unfold result, Signature.parse, bind in *.
  pose proof (forEach_parse_pair_extends R R' (JS.split "," value) (None, []))
    as Hloop.
  unfold result in Hloop.
  destruct (forEach _ _ _ R) as [[e|st] R1]; [discriminate|].
  rewrite (surjective_pairing (forEach _ _ _ R')).
  rewrite (Hloop st Hext eq_refl).
  destruct st as [[ts|] sigs]; [|discriminate].
  destruct (ts =? 0); [discriminate|]. exact Hparse.
Qed.

(** A header of the fake scheme, before and after the echo scheme is
    registered. *)
Lemma parse_survives_register_witness :
  Signature.parse "t=5,v1337=a"
    (snd (Schemes.register EchoScheme [FakeSignatureScheme]))
  = (inr (Signature.mk 5 [SignatureObject.mk FakeSignatureScheme "a"]),
     snd (Schemes.register EchoScheme [FakeSignatureScheme])).
Proof.
  apply (parse_survives_register "t=5,v1337=a" [FakeSignatureScheme]
           (Signature.mk 5 [SignatureObject.mk FakeSignatureScheme "a"])
           EchoScheme).
  reflexivity.
Defined.

(** X18.  After [unregister(v)] no header parses to an envelope with an
    entry of version [v]: every entry of a parsed envelope has a scheme
    that is still in the registry, so a header that names version [v] is
    refused. *)
Theorem unregistered_version_is_not_parsed
    (v : Z) (R : Registry) (value : string) (E : Signature.t)
    (sig : SignatureObject.t) :
  result (Signature.parse value) (snd (Schemes.unregister v R)) = inr E ->
  In sig (Signature.signatureObjects E) ->
  version (SignatureObject.scheme sig) <> v
  /\ In (SignatureObject.scheme sig) R.
Proof.
  set (R' := snd (Schemes.unregister v R)).
  unfold result. destruct (Signature.parse value R') as [r R1] eqn:Hrun.
  cbn [fst]. intros -> Hin.
  apply Signature_parse_inv in Hrun as (_ & _ & Hall & _).
  destruct (Forall2_In_r _ _ _ _ Hall Hin) as (pair & _ & Hparse).
  apply SignatureObject_parse_inv in Hparse as (_ & _ & _ & _ & Hreg).
  unfold registered_for in Hreg. apply find_some in Hreg as [Hreg _].
  unfold R' in Hreg. cbn in Hreg.
  apply filter_In in Hreg as [HinR Hv].
  split; [|exact HinR].
  now apply negb_true_iff, Z.eqb_neq in Hv.
Qed.

(** A header of the fake scheme once the echo scheme is unregistered. *)
Lemma unregistered_version_is_not_parsed_witness :
  version FakeSignatureScheme <> 7
  /\ In FakeSignatureScheme [FakeSignatureScheme; EchoScheme].
Proof.
  apply (unregistered_version_is_not_parsed 7
           [FakeSignatureScheme; EchoScheme] "t=5,v1337=a"
           (Signature.mk 5 [SignatureObject.mk FakeSignatureScheme "a"])
           (SignatureObject.mk FakeSignatureScheme "a")).
  - reflexivity.
  - now left.
Defined.

(** ** The header a sender writes *)



(** ** The default configuration *)

(** X20.  With the registry the process starts with and a MAC whose hex
    digest holds no [','] and no ['='], the built-in scheme serves the
    whole exchange: a header signed with the default schemes parses back
    to the envelope that was signed, and verifies against the payload with
    any of the signing secrets, as long as version 1 is not untrusted and
    the timestamp, positive, is within the tolerance. *)
Theorem default_exchange
    (hmac : string -> JS.Buffer -> string)
    (timestamp : Z) (payload : JS.Buffer) (secrets : list string)
    (secret : string) (Date_now : Z) (opts : option VerifySignatureOptions) :
  (forall key data, wire_safe (hmac key data) = true) ->
  0 < timestamp ->
  safe_integer timestamp ->
  In secret secrets ->
  scheme_untrusted (Signature.untrustedSchemes_of opts)
    (SignatureSchemeV1 hmac) = false ->
  Signature.ignoreTolerance_of opts = true
  \/ Signature.now_of opts Date_now - timestamp
     <= Signature.tolerance_of opts * 1000 ->
  let R := initial_schemes hmac in
  exists E,
    Signature.createSignature
      {| cs_timestamp := timestamp; cs_payload := payload;
         cs_secrets := secrets; cs_schemes := None |} R = (inr E, R)
    /\ Signature.signatureObjects E
       = map (fun s => SignatureObject.mk (SignatureSchemeV1 hmac)
                         (hmac s (v1_message timestamp payload))) secrets
    /\ Signature.parse (Signature.toString E) R = (inr E, R)
    /\ result (Signature.verify E Date_now payload secret opts) R = inr tt.
Proof.
  intros Hhex Hpos _ Hsecret Htrust Htol R.
  pose (entry := fun s => SignatureObject.mk (SignatureSchemeV1 hmac)
                            (hmac s (v1_message timestamp payload))).
  exists (Signature.mk timestamp (map entry secrets)).
  assert (Hback : forall sig, In sig (map entry secrets) ->
                              parses_back R sig /\ reparsed R sig = sig).
  { intros sig Hin. apply in_map_iff in Hin as (s & <- & _).
    split; [|reflexivity].
    split; [apply Hhex|]. split; [discriminate|].
    now exists (SignatureSchemeV1 hmac). }
  split; [|split; [reflexivity|split]].
  - rewrite createSignature_run. unfold effective_schemes, R, initial_schemes.
    cbn [cs_schemes cs_timestamp cs_payload cs_secrets flat_map].
    now rewrite app_nil_r.
  - rewrite parse_toString;
      cbn [Signature.timestamp Signature.signatureObjects].
    + replace (map (reparsed R) (map entry secrets))
        with (map entry secrets); [reflexivity|].
      rewrite <- (map_id (map entry secrets)) at 1.
      apply map_ext_in. intros sig Hin. symmetry. now apply Hback.
    + lia.
    + intros sig Hin. now apply Hback.
  - rewrite verify_after_tolerance_nonempty;
      cbn [Signature.timestamp Signature.signatureObjects].
    + replace (existsb _ _) with true; [reflexivity|]. symmetry.
      apply existsb_exists. exists (entry secret).
      split; [now apply in_map|].
      unfold accepts, recomputes, is_untrusted, entry.
      cbn [SignatureObject.scheme SignatureObject.value].
      unfold scheme_untrusted in Htrust. rewrite Htrust.
      apply String.eqb_refl.
    + unfold tolerance_passes. cbn [Signature.timestamp].
      apply orb_true_iff. destruct Htol as [H|H]; [now left|].
      right. now apply Z.leb_le.
    + destruct secrets; [contradiction | discriminate].
Qed.

(** The exchange with the stand-in MAC, the secret and the payload of the
    test suite, verified at the timestamp. *)
Lemma default_exchange_witness :
  exists E,
    Signature.createSignature
      {| cs_timestamp := sampleTimestamp; cs_payload := testPayload;
         cs_secrets := [testSecret]; cs_schemes := None |}
      (initial_schemes stub_hmac) = (inr E, initial_schemes stub_hmac)
    /\ Signature.signatureObjects E
       = map (fun s => SignatureObject.mk (SignatureSchemeV1 stub_hmac)
                         (stub_hmac s (v1_message sampleTimestamp testPayload)))
             [testSecret]
    /\ Signature.parse (Signature.toString E) (initial_schemes stub_hmac)
       = (inr E, initial_schemes stub_hmac)
    /\ result (Signature.verify E sampleTimestamp testPayload testSecret None)
              (initial_schemes stub_hmac) = inr tt.
Proof.
  apply (default_exchange stub_hmac sampleTimestamp testPayload [testSecret]
           testSecret sampleTimestamp None).
  - intros key data. reflexivity.
  - reflexivity.
  - split; reflexivity.
  - now left.
  - reflexivity.
  - right. discriminate.
Defined.
